(** * Retry helper (src/utils/retryHelper.ts): a shallow embedding

    The file embeds [retryWithBackoff] and [isNetworkError] and proves the
    properties the specification states about them. It then embeds the rest
    of the helper ([isFirebaseNetworkError]), the logger that the helper
    calls and the handlers of the authentication context, and proves what
    their code shows.

    Modelling conventions.
    - JavaScript numbers that the helper handles ([maxAttempts], [delayMs],
      the loop counter [attempt]) are integers, modelled as [Z]; the
      arithmetic of the helper ([attempt++], [delayMs * attempt]) is exact
      on them. What the source does for a [maxAttempts] that is not an
      integer (its loop then ends by the last line, after a delay), and the
      rounding of a product above 2^53, are outside the model: every
      property below is one of integer options.
    - A JavaScript string is a [string]: a sequence of code units below 256
      (the Latin-1 range), on which [toLowerCase] is modelled exactly.
    - A value of type [any] is a [JSValue]: a primitive or a plain object
      with data properties.
    - An effectful callee ([fn], [onRetry]) is a transformer of an ambient
      state [World] that settles with a [Completion]: the promise that [fn]
      returns is taken to settle, and [onRetry] to return or throw. The
      calls that the helper makes are recorded, in order, in a trace of
      [Event]s. *)

From Stdlib Require Import ZArith NArith String Ascii Bool List Lia.
Import ListNotations.

Local Open Scope Z_scope.

(** ** JavaScript values and completions *)

Module JS.

Local Open Scope string_scope.

#[warnings="-register-all"]
Inductive JSValue : Type :=
| JSUndefined
| JSNull
| JSBoolean (b : bool)
| JSNumber (n : Z)
| JSString (s : string)
| JSObject (props : list (string * JSValue)).

(** How a call settles: it returns a value, or it throws one. *)
Inductive Completion (A : Type) : Type :=
| Normal (value : A)
| Throw (error : JSValue).

Arguments Normal {A} value.
Arguments Throw {A} error.

Definition isNormal {A} (c : Completion A) : bool :=
  match c with Normal _ => true | Throw _ => false end.

Definition isThrow {A} (c : Completion A) : bool :=
  match c with Normal _ => false | Throw _ => true end.

(** [v == null] of an optional chain: the base is undefined or null. *)
Definition isNullish (v : JSValue) : bool :=
  match v with JSUndefined | JSNull => true | _ => false end.

Fixpoint lookup (key : string) (props : list (string * JSValue)) : JSValue :=
  match props with
  | [] => JSUndefined
  | (k, v) :: rest => if String.eqb k key then v else lookup key rest
  end.

(** Property read [v.key] on a non-nullish base, for a key that the
    prototypes of the primitives do not define (such as [message]). *)
Definition getProperty (v : JSValue) (key : string) : JSValue :=
  match v with
  | JSObject props => lookup key props
  | _ => JSUndefined
  end.

(** The [TypeError] that calling a non-function raises (its message text is
    engine specific and left out). *)
Definition notAFunction : JSValue :=
  JSObject [("name", JSString "TypeError")].

(** *** Strings *)

(** [String.prototype.toLowerCase] on one code unit of the Latin-1 range:
    A-Z and the capital letters U+00C0..U+00DE (the sign U+00D7 apart) move
    up by 32. *)
Definition toLowerCaseUnit (c : ascii) : ascii :=
  let n := N_of_ascii c in
  if (((65 <=? n) && (n <=? 90))
      || ((192 <=? n) && (n <=? 222) && negb (n =? 215)))%N
  then ascii_of_N (n + 32)
  else c.

Fixpoint toLowerCase (s : string) : string :=
  match s with
  | EmptyString => EmptyString
  | String c rest => String (toLowerCaseUnit c) (toLowerCase rest)
  end.

(** [s.includes(search)]: [search] occurs in [s] as a substring. *)
Fixpoint includes (s search : string) : bool :=
  String.prefix search s
  || match s with
     | EmptyString => false
     | String _ rest => includes rest search
     end.

(** [v || ''] where [v] is a string or undefined: the empty string and
    undefined are falsy. *)
Definition orEmpty (v : JSValue) : string :=
  match v with
  | JSString s => s
  | _ => ""
  end.

End JS.

Import JS.

(** ** isNetworkError *)

Section NetworkError.

Local Open Scope string_scope.

Definition networkErrorMessages : list string :=
  [ "network request failed";
    "failed to fetch";
    "network error";
    "timeout";
    "connection refused";
    "ERR_NETWORK";
    "ERR_INTERNET_DISCONNECTED" ].

(** The five entries of [networkErrorMessages] written in lower case. *)
Definition lowercasePatterns : list string :=
  [ "network request failed";
    "failed to fetch";
    "network error";
    "timeout";
    "connection refused" ].

(** [error?.message]. *)
Definition optionalMessage (error : JSValue) : JSValue :=
  if isNullish error then JSUndefined else getProperty error "message".

(** [m?.toLowerCase()]: undefined on a nullish [m]; the lowered string on a
    string; on any other value the property [toLowerCase] is not a function
    and the call throws. *)
Definition optionalToLowerCase (m : JSValue) : Completion JSValue :=
  match m with
  | JSUndefined | JSNull => Normal JSUndefined
  | JSString s => Normal (JSString (toLowerCase s))
  | _ => Throw notAFunction
  end.

Definition isNetworkError (error : JSValue) : Completion bool :=
  match optionalToLowerCase (optionalMessage error) with
  | Throw e => Throw e
  | Normal lowered =>
      let errorMessage := orEmpty lowered in
      Normal (existsb (fun msg => includes errorMessage msg) networkErrorMessages)
  end.

End NetworkError.

(** ** retryWithBackoff *)

(** [interface RetryOptions]: every field may be absent (or undefined). *)
Module RetryOptions.

Record t (World : Type) : Type := make {
  maxAttempts : option Z;
  delayMs : option Z;
  backoff : option bool;
  onRetry : option (Z -> JSValue -> World -> Completion unit * World)
}.

Arguments make {World} _ _ _ _.
Arguments maxAttempts {World} _.
Arguments delayMs {World} _.
Arguments backoff {World} _.
Arguments onRetry {World} _.

(** The object literal [{}]. *)
Definition empty {World : Type} : t World := make None None None None.

End RetryOptions.

(** A destructuring default [x = d]: [d] replaces an absent [x]. *)
Definition orDefault {A : Type} (x : option A) (d : A) : A :=
  match x with
  | Some a => a
  | None => d
  end.

Section Retry.

Context {T World : Type}.

(** [fn : () => Promise<T>], awaited: it acts on the world and settles. *)
Definition Operation : Type := World -> Completion T * World.

(** [onRetry : (attempt, error) => void]: it acts on the world and returns,
    or throws. *)
Definition Callback : Type := Z -> JSValue -> World -> Completion unit * World.

(** The calls that the helper makes, with the way the callee settled. The
    two logger events stand for the template strings of the source with the
    numbers they interpolate. *)
Inductive Event : Type :=
| EvFn (settled : Completion T)
| EvLoggerError (maxAttempts : Z) (error : JSValue)
| EvLoggerWarn (attempt delay : Z) (error : JSValue)
| EvOnRetry (attempt : Z) (error : JSValue) (settled : Completion unit)
| EvSetTimeout (delay : Z).

(** What one execution leaves behind. [outcome] is [None] only where the
    model ran out of fuel before the promise settled. *)
Record Run (A : Type) : Type := mkRun {
  outcome : option (Completion A);
  final : World;
  trace : list Event
}.

Arguments mkRun {A} _ _ _.
Arguments outcome {A} _.
Arguments final {A} _.
Arguments trace {A} _.

(** State, trace and exceptions. *)
Definition M (A : Type) : Type := World -> Run A.

Definition ret {A} (a : A) : M A :=
  fun w => mkRun (Some (Normal a)) w [].

Definition throw {A} (e : JSValue) : M A :=
  fun w => mkRun (Some (Throw e)) w [].

Definition unsettled {A} : M A :=
  fun w => mkRun None w [].

Definition bind {A B} (m : M A) (k : A -> M B) : M B :=
  fun w =>
    let r := m w in
    match outcome r with
    | Some (Normal a) =>
        let r' := k a (final r) in
        mkRun (outcome r') (final r') (trace r ++ trace r')
    | Some (Throw e) => mkRun (Some (Throw e)) (final r) (trace r)
    | None => mkRun None (final r) (trace r)
    end.

Notation "x <- m ;; k" := (bind m (fun x => k))
  (at level 61, m at next level, right associativity).
Notation "m ;; k" := (bind m (fun _ => k))
  (at level 61, right associativity).

(** [try { await fn() } catch (error) ...]: the settlement, reified. *)
Definition await (fn : Operation) : M (Completion T) :=
  fun w => let (c, w') := fn w in mkRun (Some (Normal c)) w' [EvFn c].

Definition loggerError (maxAttempts : Z) (error : JSValue) : M unit :=
  fun w => mkRun (Some (Normal tt)) w [EvLoggerError maxAttempts error].

Definition loggerWarn (attempt delay : Z) (error : JSValue) : M unit :=
  fun w => mkRun (Some (Normal tt)) w [EvLoggerWarn attempt delay error].

(** [onRetry(attempt, error)]; what it throws is not caught. *)
Definition call (cb : Callback) (attempt : Z) (error : JSValue) : M unit :=
  fun w =>
    let (c, w') := cb attempt error w in
    mkRun (Some c) w' [EvOnRetry attempt error c].

(** [await new Promise((resolve) => setTimeout(resolve, delay))]. *)
Definition setTimeout (delay : Z) : M unit :=
  fun w => mkRun (Some (Normal tt)) w [EvSetTimeout delay].

Section Loop.

Variable fn : Operation.
Variables maxAttempts delayMs : Z.
Variable backoff : bool.
Variable onRetry : option Callback.

(** [for (...; attempt <= maxAttempts; attempt++) { ... } throw lastError],
    entered with the current [attempt] and [lastError], for an integer
    [maxAttempts]. *)
Fixpoint loop (fuel : nat) (attempt : Z) (lastError : JSValue) : M T :=
  if attempt <=? maxAttempts then
    match fuel with
    | O => unsettled
    | S fuel' =>
        settled <- await fn ;;
        match settled with
        | Normal value => ret value
        | Throw error =>
            if attempt =? maxAttempts then
              loggerError maxAttempts error ;;
              throw error
            else
              let delay := if backoff then delayMs * attempt else delayMs in
              loggerWarn attempt delay error ;;
              match onRetry with
              | Some cb => call cb attempt error
              | None => ret tt
              end ;;
              setTimeout delay ;;
              loop fuel' (attempt + 1) error
        end
    end
  else throw lastError.

End Loop.

(** The parameter default [options = {}], the destructuring defaults, and
    the loop from [attempt = 1] with [lastError] undefined. The body runs
    at most [maxAttempts] times, which is the fuel the loop is given. *)
Definition retryWithBackoff (fn : Operation)
    (options : option (RetryOptions.t World)) : M T :=
  let options := orDefault options RetryOptions.empty in
  let maxAttempts := orDefault (RetryOptions.maxAttempts options) 3 in
  let delayMs := orDefault (RetryOptions.delayMs options) 1000 in
  let backoff := orDefault (RetryOptions.backoff options) true in
  let onRetry := RetryOptions.onRetry options in
  loop fn maxAttempts delayMs backoff onRetry (Z.to_nat maxAttempts) 1 JSUndefined.

End Retry.

Arguments Event : clear implicits.
Arguments Run : clear implicits.
Arguments mkRun {T World A} _ _ _.
Arguments outcome {T World A} _.
Arguments final {T World A} _.
Arguments trace {T World A} _.

(** ** Observations on a trace *)

Section Observations.

Context {T : Type}.

(** How each invocation of [fn] settled, in order. *)
Fixpoint fnOutcomes (tr : list (Event T)) : list (Completion T) :=
  match tr with
  | [] => []
  | EvFn c :: rest => c :: fnOutcomes rest
  | _ :: rest => fnOutcomes rest
  end.

(** The arguments of each invocation of [onRetry], in order. *)
Fixpoint onRetryCalls (tr : list (Event T)) : list (Z * JSValue) :=
  match tr with
  | [] => []
  | EvOnRetry attempt error _ :: rest => (attempt, error) :: onRetryCalls rest
  | _ :: rest => onRetryCalls rest
  end.

(** The inter-attempt delays that were awaited, in order. *)
Fixpoint delays (tr : list (Event T)) : list Z :=
  match tr with
  | [] => []
  | EvSetTimeout delay :: rest => delay :: delays rest
  | _ :: rest => delays rest
  end.

End Observations.

(** The attempt numbers [from; from + 1; ...], [count] of them. *)
Fixpoint attemptNumbers (from : Z) (count : nat) : list Z :=
  match count with
  | O => []
  | S count' => from :: attemptNumbers (from + 1) count'
  end.

(** ** Properties of callees *)

Section Callees.

Context {T World : Type}.

(** The operation fails on every attempt, whatever the world it runs in. *)
Definition alwaysFails (fn : @Operation T World) : Prop :=
  forall w, isThrow (fst (fn w)) = true.

(** The observer, where one is configured, does not itself throw. *)
Definition neverThrows (onRetry : option (@Callback World)) : Prop :=
  match onRetry with
  | Some cb => forall attempt error w, isNormal (fst (cb attempt error w)) = true
  | None => True
  end.



(** The options once the destructuring defaults are in. *)
Definition maxAttemptsOf (options : RetryOptions.t World) : Z :=
  orDefault (RetryOptions.maxAttempts options) 3.

Definition delayMsOf (options : RetryOptions.t World) : Z :=
  orDefault (RetryOptions.delayMs options) 1000.

Definition backoffOf (options : RetryOptions.t World) : bool :=
  orDefault (RetryOptions.backoff options) true.

(** [if (onRetry)]: an observer is configured. *)
Definition configured (onRetry : option (@Callback World)) : bool :=
  match onRetry with
  | Some _ => true
  | None => false
  end.

(** [backoff ? delayMs * attempt : delayMs]. *)
Definition chosenDelay (delayMs : Z) (backoff : bool) (attempt : Z) : Z :=
  if backoff then delayMs * attempt else delayMs.

End Callees.

(** ** The loop as a big-step relation

    [Runs attempt lastError w r]: entered at [attempt] with [lastError] in
    world [w], the loop settles as [r]. One constructor per way through the
    loop body. *)

Section BigStep.

Context {T World : Type}.
Variable fn : @Operation T World.
Variables maxAttempts delayMs : Z.
Variable backoff : bool.
Variable onRetry : option (@Callback World).

Inductive Runs : Z -> JSValue -> World -> Run T World T -> Prop :=
| Runs_exit attempt lastError w :
    maxAttempts < attempt ->
    Runs attempt lastError w (mkRun (Some (Throw lastError)) w [])
| Runs_return attempt lastError w value w1 :
    attempt <= maxAttempts ->
    fn w = (Normal value, w1) ->
    Runs attempt lastError w
      (mkRun (Some (Normal value)) w1 [EvFn (Normal value)])
| Runs_exhausted attempt lastError w error w1 :
    attempt = maxAttempts ->
    fn w = (Throw error, w1) ->
    Runs attempt lastError w
      (mkRun (Some (Throw error)) w1
         [EvFn (Throw error); EvLoggerError maxAttempts error])
| Runs_observer_throws attempt lastError w error w1 cb thrown w2 :
    attempt < maxAttempts ->
    fn w = (Throw error, w1) ->
    onRetry = Some cb ->
    cb attempt error w1 = (Throw thrown, w2) ->
    Runs attempt lastError w
      (mkRun (Some (Throw thrown)) w2
         [EvFn (Throw error);
          EvLoggerWarn attempt (chosenDelay delayMs backoff attempt) error;
          EvOnRetry attempt error (Throw thrown)])
| Runs_retry_observed attempt lastError w error w1 cb w2 r :
    attempt < maxAttempts ->
    fn w = (Throw error, w1) ->
    onRetry = Some cb ->
    cb attempt error w1 = (Normal tt, w2) ->
    Runs (attempt + 1) error w2 r ->
    Runs attempt lastError w
      (mkRun (outcome r) (final r)
         (EvFn (Throw error)
          :: EvLoggerWarn attempt (chosenDelay delayMs backoff attempt) error
          :: EvOnRetry attempt error (Normal tt)
          :: EvSetTimeout (chosenDelay delayMs backoff attempt)
          :: trace r))
| Runs_retry attempt lastError w error w1 r :
    attempt < maxAttempts ->
    fn w = (Throw error, w1) ->
    onRetry = None ->
    Runs (attempt + 1) error w1 r ->
    Runs attempt lastError w
      (mkRun (outcome r) (final r)
         (EvFn (Throw error)
          :: EvLoggerWarn attempt (chosenDelay delayMs backoff attempt) error
          :: EvSetTimeout (chosenDelay delayMs backoff attempt)
          :: trace r)).

End BigStep.

(** ** Concrete callees and errors *)

(** An operation whose [n]-th invocation settles as [script n]; its world
    is the number of invocations so far. *)
Definition scripted {T : Type} (script : nat -> Completion T)
  : @Operation T nat :=
  fun n => (script n, S n).

(** Fails every time; the [k]-th failure carries the payload [k]. *)
Definition failing : @Operation Z nat :=
  scripted (fun n => Throw (JSNumber (Z.of_nat (S n)))).

(** Fails with [E1], then with [E2], then returns 42. *)
Definition flaky : @Operation Z nat :=
  scripted (fun n =>
    match n with
    | O => Throw (JSString "E1")
    | S O => Throw (JSString "E2")
    | _ => Normal 42
    end).


(** Returns 7 every time. *)
Definition steady : @Operation Z nat :=
  scripted (fun _ => Normal 7).

(** An observer that only returns. *)
Definition quiet : @Callback nat :=
  fun _ _ w => (Normal tt, w).

(** An observer that throws what it is given a description of. *)
Definition faulty : @Callback nat :=
  fun _ _ w => (Throw (JSString "observer failed"), w).

(** [new Error(message)], as far as its own data goes. *)
Definition newError (message : string) : JSValue :=
  JSObject [("message"%string, JSString message)].

(** An error whose message is a string. *)
Definition hasStringMessage (error : JSValue) : bool :=
  match optionalMessage error with
  | JSString _ => true
  | _ => false
  end.

(** What "bounded attempts" promises of a run of [N] failing attempts:
    [N] invocations of the operation, the observer (if [observed]) called
    with attempts 1 to [N - 1] in order, and [N - 1] delays. *)
Definition boundedAttempts {T : Type} (observed : bool) (N : Z)
    (tr : list (Event T)) : Prop :=
  length (fnOutcomes tr) = Z.to_nat N
  /\ map fst (onRetryCalls tr)
     = (if observed then attemptNumbers 1 (Z.to_nat (N - 1)) else [])
  /\ length (delays tr) = Z.to_nat (N - 1).

(** What follows, in a trace, a failure [e] of attempt [n] that is retried
    with delay [d]: the warning, then the observer's call (if [observed])
    and, unless that call threw, the delay. *)
Definition retrySequence {T : Type} (observed : bool) (n d : Z) (e : JSValue)
    (post : list (Event T)) : Prop :=
  if observed then
    exists c rest,
      post = EvLoggerWarn n d e :: EvOnRetry n e c :: rest
      /\ match c with
         | Normal _ => exists rest', rest = EvSetTimeout d :: rest'
         | Throw _ => rest = []
         end
  else
    exists rest, post = EvLoggerWarn n d e :: EvSetTimeout d :: rest.

(** Options used as examples. *)

(** [{ maxAttempts: 5, delayMs: 100, backoff: true, onRetry: quiet }]. *)
Definition fiveAttempts : RetryOptions.t nat :=
  RetryOptions.make (Some 5) (Some 100) (Some true) (Some quiet).

(** [{ maxAttempts: 3, backoff: false, onRetry: quiet }]. *)
Definition threeAttempts : RetryOptions.t nat :=
  RetryOptions.make (Some 3) None (Some false) (Some quiet).

(** [{ maxAttempts: 2, onRetry: faulty }]. *)
Definition twoAttemptsFaulty : RetryOptions.t nat :=
  RetryOptions.make (Some 2) None None (Some faulty).


(** [{ maxAttempts: 0 }]. *)
Definition noAttempts : RetryOptions.t nat :=
  RetryOptions.make (Some 0) None None None.

(** [{ maxAttempts: 3, delayMs: 1000, backoff: true }]: the documented
    defaults, written out. *)
Definition documentedDefaults {World : Type} : RetryOptions.t World :=
  RetryOptions.make (Some 3) (Some 1000) (Some true) None.

(** The options with every omitted field replaced by its default. *)
Definition withDefaults {World : Type} (options : RetryOptions.t World)
  : RetryOptions.t World :=
  RetryOptions.make
    (Some (maxAttemptsOf options))
    (Some (delayMsOf options))
    (Some (backoffOf options))
    (RetryOptions.onRetry options).

(** A-Z. *)
Definition isUpperAscii (c : ascii) : bool :=
  ((65 <=? N_of_ascii c) && (N_of_ascii c <=? 90))%N.

(** ** isFirebaseNetworkError *)

Section FirebaseNetworkError.

Local Open Scope string_scope.

Definition firebaseNetworkCodes : list string :=
  [ "auth/network-request-failed";
    "unavailable";
    "deadline-exceeded" ].

(** [error?.code]. *)
Definition optionalCode (error : JSValue) : JSValue :=
  if isNullish error then JSUndefined else getProperty error "code".

Definition isFirebaseNetworkError (error : JSValue) : Completion bool :=
  match optionalToLowerCase (optionalCode error) with
  | Throw e => Throw e
  | Normal lowered =>
      let errorCode := orEmpty lowered in
      Normal (existsb (fun code => includes errorCode code) firebaseNetworkCodes)
  end.

End FirebaseNetworkError.

(** ** The logger (src/utils/logger)

    The clock is read as the string that [new Date().toISOString()]
    returns. The glyph that starts a console line is kept as a token beside
    the text of the line; a key of a [Partial<LoggerConfig>] is absent or
    carries a value. *)

Module Logger.

Local Open Scope string_scope.

Inductive LogLevel : Type := Debug | Info | Warn | Error.

(** The level as the string the source writes: ['debug'], ['info'],
    ['warn'], ['error']. *)
Definition levelName (level : LogLevel) : string :=
  match level with
  | Debug => "debug"
  | Info => "info"
  | Warn => "warn"
  | Error => "error"
  end.

Record LoggerConfig : Type := {
  enabled : bool;
  level : LogLevel;
  includeTimestamp : bool;
  includeCaller : bool
}.

(** [Partial<LoggerConfig>]. *)
Record PartialConfig : Type := {
  enabled' : option bool;
  level' : option LogLevel;
  includeTimestamp' : option bool;
  includeCaller' : option bool
}.

Definition LOG_LEVELS (level : LogLevel) : Z :=
  match level with
  | Debug => 0
  | Info => 1
  | Warn => 2
  | Error => 3
  end.

(** [process.env.NODE_ENV !== 'production']. *)
Definition isDevelopment (NODE_ENV : option string) : bool :=
  match NODE_ENV with
  | Some env => negb (String.eqb env "production")
  | None => true
  end.

(** [constructor(config?: Partial<LoggerConfig>)]: the configuration it
    stores. *)
Definition constructor (NODE_ENV : option string)
    (config : option PartialConfig) : LoggerConfig :=
  let isDevelopment := isDevelopment NODE_ENV in
  {| enabled :=
       orDefault (match config with Some c => enabled' c | None => None end)
         isDevelopment;
     level :=
       orDefault (match config with Some c => level' c | None => None end)
         (if isDevelopment then Debug else Warn);
     includeTimestamp :=
       orDefault
         (match config with Some c => includeTimestamp' c | None => None end)
         true;
     includeCaller :=
       orDefault
         (match config with Some c => includeCaller' c | None => None end)
         isDevelopment |}.

Definition shouldLog (config : LoggerConfig) (level : LogLevel) : bool :=
  if negb (enabled config) then false
  else LOG_LEVELS level >=? LOG_LEVELS (Logger.level config).

(** [s.toUpperCase()] for a string of ASCII characters, as the level names
    are: a-z move down by 32. *)
Definition toUpperCaseUnit (c : ascii) : ascii :=
  let n := N_of_ascii c in
  if ((97 <=? n) && (n <=? 122))%N then ascii_of_N (n - 32) else c.

Fixpoint toUpperCase (s : string) : string :=
  match s with
  | EmptyString => EmptyString
  | String c rest => String (toUpperCaseUnit c) (toUpperCase rest)
  end.

(** [s.split(sep)] for a separator of one code unit. *)
Fixpoint split (sep : ascii) (s : string) : list string :=
  match s with
  | EmptyString => [EmptyString]
  | String c rest =>
      if Ascii.eqb c sep then EmptyString :: split sep rest
      else
        match split sep rest with
        | piece :: pieces => String c piece :: pieces
        | [] => [String c EmptyString]
        end
  end.

(** The [TypeError] that reading a property of undefined raises. *)
Definition undefinedHasNoProperties : JSValue :=
  JSObject [("name", JSString "TypeError")].

(** [iso.split('T')[1].slice(0, 12)]. *)
Definition timestampOf (iso : string) : Completion string :=
  match nth_error (split "T" iso) 1 with
  | Some time => Normal (substring 0 12 time)
  | None => Throw undefinedHasNoProperties
  end.

(** [formatMessage(level, message)]; the rest arguments are not read. *)
Definition formatMessage (config : LoggerConfig) (iso : string)
    (level : LogLevel) (message : string) : Completion string :=
  match
    (if includeTimestamp config then
       match timestampOf iso with
       | Normal timestamp => Normal ["[" ++ timestamp ++ "]"]
       | Throw e => Throw e
       end
     else Normal [])
  with
  | Throw e => Throw e
  | Normal parts =>
      let parts :=
        List.app parts ["[" ++ toUpperCase (levelName level) ++ "]"] in
      let parts := List.app parts [message] in
      Normal (String.concat " " parts)
  end.

(** The glyphs of [getEmoji], by the name of their character. *)
Inductive Emoji : Type :=
| LeftPointingMagnifyingGlass
| InformationSource
| WarningSign
| CrossMark.

Definition getEmoji (level : LogLevel) : Emoji :=
  match level with
  | Debug => LeftPointingMagnifyingGlass
  | Info => InformationSource
  | Warn => WarningSign
  | Error => CrossMark
  end.

(** A call on [console]. The first argument of [log], [warn] and [error]
    is the template [`${emoji} ${text}`]. *)
Inductive ConsoleCall : Type :=
| ConsoleLog (emoji : Emoji) (text : string) (args : list JSValue)
| ConsoleWarn (emoji : Emoji) (text : string) (args : list JSValue)
| ConsoleError (emoji : Emoji) (text : string) (args : list JSValue)
| ConsoleGroup (label : string)
| ConsoleGroupEnd.

(** Each method returns the console calls it makes, or throws. *)
Definition debug (config : LoggerConfig) (iso : string)
    (message : string) (args : list JSValue) : Completion (list ConsoleCall) :=
  if negb (shouldLog config Debug) then Normal []
  else
    let emoji := getEmoji Debug in
    match formatMessage config iso Debug message with
    | Normal text => Normal [ConsoleLog emoji text args]
    | Throw e => Throw e
    end.

Definition info (config : LoggerConfig) (iso : string)
    (message : string) (args : list JSValue) : Completion (list ConsoleCall) :=
  if negb (shouldLog config Info) then Normal []
  else
    let emoji := getEmoji Info in
    match formatMessage config iso Info message with
    | Normal text => Normal [ConsoleLog emoji text args]
    | Throw e => Throw e
    end.

Definition warn (config : LoggerConfig) (iso : string)
    (message : string) (args : list JSValue) : Completion (list ConsoleCall) :=
  if negb (shouldLog config Warn) then Normal []
  else
    let emoji := getEmoji Warn in
    match formatMessage config iso Warn message with
    | Normal text => Normal [ConsoleWarn emoji text args]
    | Throw e => Throw e
    end.

(** [error(message, error?, ...args)]: an omitted [error] is undefined. *)
Definition error (config : LoggerConfig) (iso : string)
    (message : string) (error : JSValue) (args : list JSValue)
  : Completion (list ConsoleCall) :=
  if negb (shouldLog config Error) then Normal []
  else
    let emoji := getEmoji Error in
    match formatMessage config iso Error message with
    | Normal text => Normal [ConsoleError emoji text (error :: args)]
    | Throw e => Throw e
    end.

Definition group (config : LoggerConfig) (label : string)
  : Completion (list ConsoleCall) :=
  if negb (enabled config) then Normal [] else Normal [ConsoleGroup label].

Definition groupEnd (config : LoggerConfig) : Completion (list ConsoleCall) :=
  if negb (enabled config) then Normal [] else Normal [ConsoleGroupEnd].

(** [setConfig(config)]: [{ ...this.config, ...config }]. *)
Definition setConfig (current : LoggerConfig) (config : PartialConfig)
  : LoggerConfig :=
  {| enabled := orDefault (enabled' config) (enabled current);
     level := orDefault (level' config) (level current);
     includeTimestamp :=
       orDefault (includeTimestamp' config) (includeTimestamp current);
     includeCaller := orDefault (includeCaller' config) (includeCaller current) |}.

(** [{ ...first, ...second }] on two partial configurations. *)
Definition spread (first second : PartialConfig) : PartialConfig :=
  {| enabled' :=
       match enabled' second with Some b => Some b | None => enabled' first end;
     level' :=
       match level' second with Some l => Some l | None => level' first end;
     includeTimestamp' :=
       match includeTimestamp' second with
       | Some b => Some b
       | None => includeTimestamp' first
       end;
     includeCaller' :=
       match includeCaller' second with
       | Some b => Some b
       | None => includeCaller' first
       end |}.

(** The clock reading has the shape [<date>T<HH:mm:ss.sss>Z]: a date and
    a time of twelve code units, neither with a [T] in it. *)
Definition isoShaped (iso date time : string) : Prop :=
  iso = date ++ "T" ++ time ++ "Z"
  /\ String.length time = 12%nat
  /\ includes date "T" = false
  /\ includes time "T" = false.

(** The level as it is printed. *)
Definition levelTag (level : LogLevel) : string :=
  match level with
  | Debug => "[DEBUG]"
  | Info => "[INFO]"
  | Warn => "[WARN]"
  | Error => "[ERROR]"
  end.

(** The object literal [{}] as a partial configuration. *)
Definition noChange : PartialConfig :=
  {| enabled' := None;
     level' := None;
     includeTimestamp' := None;
     includeCaller' := None |}.

(** [{ includeCaller: b }]. *)
Definition onlyIncludeCaller (b : bool) : PartialConfig :=
  {| enabled' := None;
     level' := None;
     includeTimestamp' := None;
     includeCaller' := Some b |}.

End Logger.

(** ** The authentication context (src/contexts/FirebaseAuthContext.tsx)

    The component's state is a record; a state setter writes its field, and
    the setters of one handler take effect in the order they are called.
    The services and the router are not part of these sources: each is a
    function on an external world that returns or throws. A profile, whose
    type is not part of these sources either, is the list of its
    properties, read by [lookup]. The logger is taken not to throw. *)

Module Auth.

Local Open Scope string_scope.

(** [value ? ... : ...], [!value], [a && b]: the truthiness of a value. *)
Definition truthy (v : JSValue) : bool :=
  match v with
  | JSUndefined | JSNull => false
  | JSBoolean b => b
  | JSNumber n => negb (n =? 0)%Z
  | JSString s => negb (String.eqb s "")
  | JSObject _ => true
  end.

(** [a !== b] on values that are not objects. *)
Definition differs (a b : JSValue) : bool :=
  match a, b with
  | JSUndefined, JSUndefined => false
  | JSNull, JSNull => false
  | JSBoolean x, JSBoolean y => negb (Bool.eqb x y)
  | JSNumber x, JSNumber y => negb (x =? y)%Z
  | JSString x, JSString y => negb (String.eqb x y)
  | _, _ => true
  end.

Definition Profile : Type := list (string * JSValue).

(** [{ ...prev, ...updates }], read by [lookup]. *)
Definition spread (prev updates : Profile) : Profile :=
  List.app updates prev.

Record FirebaseUser : Type := {
  uid : string;
  email : JSValue;
  displayName : JSValue;
  photoURL : JSValue
}.

Record AuthUser : Type := {
  authUid : string;
  authEmail : JSValue;
  authDisplayName : JSValue;
  authPhotoURL : JSValue
}.

(** The five [useState] cells. *)
Record AuthState : Type := {
  user : option FirebaseUser;
  userProfile : option Profile;
  loading : bool;
  isAuthenticated : bool;
  error : option string
}.

(** The state of the first render. *)
Definition initialState : AuthState :=
  {| user := None;
     userProfile := None;
     loading := true;
     isAuthenticated := false;
     error := None |}.

Inductive ExternalCall : Type :=
| SaveUser (authUser : AuthUser)
| GetUser
| ClearAllData
| AuthLogout
| GetUserProfile (userId : string)
| LoginUser (email password : string)
| RegisterUser (email password name : string)
| DeleteProfileImage (url : JSValue)
| UpdateUserProfile (userId : string) (updates : Profile)
| RouterReplace (path : string).

(** What the component does to the outside, in order. *)
Inductive Effect : Type :=
| Logged (level : Logger.LogLevel) (message : string) (args : list JSValue)
| Called (call : ExternalCall).

Section Component.

Variable Ext : Type.

(** [AuthService], [FirebaseService] and [router]. *)
Record Services : Type := {
  saveUser : AuthUser -> Ext -> Completion unit * Ext;
  getUser : Ext -> Completion JSValue * Ext;
  clearAllData : Ext -> Completion unit * Ext;
  authLogout : Ext -> Completion unit * Ext;
  getUserProfile : string -> Ext -> Completion (option Profile) * Ext;
  loginUser : string -> string -> Ext -> Completion unit * Ext;
  registerUser : string -> string -> string -> Ext -> Completion unit * Ext;
  deleteProfileImage : JSValue -> Ext -> Completion unit * Ext;
  updateProfile : string -> Profile -> Ext -> Completion unit * Ext;
  routerReplace : string -> Ext -> Completion unit * Ext
}.

Variable services : Services.

Record Store : Type := {
  ui : AuthState;
  ext : Ext;
  effects : list Effect
}.

Definition Act (A : Type) : Type := Store -> Completion A * Store.

Definition ret {A} (a : A) : Act A := fun s => (Normal a, s).

Definition throw {A} (e : JSValue) : Act A := fun s => (Throw e, s).

Definition bind {A B} (m : Act A) (k : A -> Act B) : Act B :=
  fun s =>
    match m s with
    | (Normal a, s') => k a s'
    | (Throw e, s') => (Throw e, s')
    end.

(** [try { body } catch (error) { handler }]. *)
Definition tryCatch {A} (body : Act A) (handler : JSValue -> Act A) : Act A :=
  fun s =>
    match body s with
    | (Normal a, s') => (Normal a, s')
    | (Throw e, s') => handler e s'
    end.

(** [try { body } finally { final }]. *)
Definition tryFinally {A} (body : Act A) (final : Act unit) : Act A :=
  fun s =>
    match body s with
    | (c, s') =>
        match final s' with
        | (Normal _, s'') => (c, s'')
        | (Throw e, s'') => (Throw e, s'')
        end
    end.

Notation "x <- m ;; k" := (bind m (fun x => k))
  (at level 61, m at next level, right associativity).
Notation "m ;; k" := (bind m (fun _ => k))
  (at level 61, right associativity).

Definition log (level : Logger.LogLevel) (message : string)
    (args : list JSValue) : Act unit :=
  fun s =>
    (Normal tt,
     {| ui := ui s; ext := ext s;
        effects := List.app (effects s) [Logged level message args] |}).

(** A call of a service: recorded, then answered by the outside. *)
Definition call {A} (what : ExternalCall)
    (service : Ext -> Completion A * Ext) : Act A :=
  fun s =>
    let (c, ext') := service (ext s) in
    (c, {| ui := ui s; ext := ext';
          effects := List.app (effects s) [Called what] |}).

Definition update (f : AuthState -> AuthState) : Act unit :=
  fun s => (Normal tt, {| ui := f (ui s); ext := ext s; effects := effects s |}).

Definition setUser (u : option FirebaseUser) : Act unit :=
  update (fun st =>
    {| user := u; userProfile := userProfile st; loading := loading st;
       isAuthenticated := isAuthenticated st; error := error st |}).

(** [setUserProfile(prev => f(prev))]; a value [p] is [fun _ => p]. *)
Definition setUserProfile (f : option Profile -> option Profile) : Act unit :=
  update (fun st =>
    {| user := user st; userProfile := f (userProfile st);
       loading := loading st; isAuthenticated := isAuthenticated st;
       error := error st |}).

Definition setLoading (b : bool) : Act unit :=
  update (fun st =>
    {| user := user st; userProfile := userProfile st; loading := b;
       isAuthenticated := isAuthenticated st; error := error st |}).

Definition setIsAuthenticated (b : bool) : Act unit :=
  update (fun st =>
    {| user := user st; userProfile := userProfile st; loading := loading st;
       isAuthenticated := b; error := error st |}).

Definition setError (e : option string) : Act unit :=
  update (fun st =>
    {| user := user st; userProfile := userProfile st; loading := loading st;
       isAuthenticated := isAuthenticated st; error := e |}).

(** [value || undefined]. *)
Definition orUndefined (v : JSValue) : JSValue :=
  if truthy v then v else JSUndefined.

Definition migrateLocalDataToFirebase (userId : string) : Act unit :=
  tryCatch
    (log Logger.Debug ("[Migration] Collecting local data for user: " ++ userId) [] ;;
     log Logger.Info
       ("[Migration] Skipped - using new auth system for user: " ++ userId) [])
    (fun error =>
       log Logger.Error ("[Migration] Failed for user: " ++ userId) [error]).

Definition checkAndMigrateLocalData (userId : string) : Act unit :=
  tryCatch
    (log Logger.Debug ("[Migration] Checking status for user: " ++ userId) [] ;;
     migrationFlag <- call GetUser (getUser services) ;;
     if negb (truthy migrationFlag) then
       log Logger.Info
         ("[Migration] Starting data migration for user: " ++ userId) [] ;;
       tryCatch
         (migrateLocalDataToFirebase userId ;;
          log Logger.Info
            ("[Migration] Completed successfully for user: " ++ userId) [])
         (fun error =>
            log Logger.Error ("[Migration] Failed for user: " ++ userId) [error])
     else
       log Logger.Debug ("[Migration] Already completed for user: " ++ userId) [])
    (fun error =>
       log Logger.Error ("[Migration] Check failed for user: " ++ userId) [error]).

(** The listener given to [onAuthStateChanged]. *)
Definition onAuthStateChangedListener (firebaseUser : option FirebaseUser)
  : Act unit :=
  tryFinally
    (tryCatch
       (setLoading true ;;
        setError None ;;
        log Logger.Debug "[Auth] State changed:"
          [JSString (match firebaseUser with
                     | Some u => "User " ++ uid u
                     | None => "No user"
                     end)] ;;
        match firebaseUser with
        | Some firebaseUser =>
            log Logger.Info "[Auth] User authenticated:"
              [JSString (uid firebaseUser)] ;;
            setUser (Some firebaseUser) ;;
            setIsAuthenticated true ;;
            let authUser :=
              {| authUid := uid firebaseUser;
                 authEmail := email firebaseUser;
                 authDisplayName := orUndefined (displayName firebaseUser);
                 authPhotoURL := orUndefined (photoURL firebaseUser) |} in
            call (SaveUser authUser) (saveUser services authUser) ;;
            log Logger.Debug "[Auth] Loading profile for user:"
              [JSString (uid firebaseUser)] ;;
            profile <- call (GetUserProfile (uid firebaseUser))
                         (getUserProfile services (uid firebaseUser)) ;;
            setUserProfile (fun _ => profile) ;;
            log Logger.Info "[Auth] Profile loaded:"
              [JSString (match profile with
                         | Some _ => "Success"
                         | None => "Not found"
                         end)] ;;
            match profile with
            | Some profile =>
                log Logger.Debug "[Auth] Tutorial status:"
                  [JSString (if truthy (lookup "hasSeenTutorial" profile)
                             then "SEEN" else "NOT SEEN")]
            | None => ret tt
            end ;;
            checkAndMigrateLocalData (uid firebaseUser)
        | None =>
            log Logger.Info "[Auth] User logged out" [] ;;
            setUser None ;;
            setUserProfile (fun _ => None) ;;
            setIsAuthenticated false ;;
            setError None ;;
            tryCatch
              (call ClearAllData (clearAllData services) ;;
               log Logger.Debug "[Auth] Local data cleared after logout" [])
              (fun error =>
                 log Logger.Warn "[Auth] Could not clear local data:" [error])
        end)
       (fun error =>
          log Logger.Error "[Auth] Error in auth state change:" [error] ;;
          setError (Some "Authentication error occurred") ;;
          setUser None ;;
          setUserProfile (fun _ => None) ;;
          setIsAuthenticated false))
    (setLoading false).

Definition handleCrossTabLogout : Act unit :=
  tryCatch
    (setUser None ;;
     setUserProfile (fun _ => None) ;;
     setIsAuthenticated false ;;
     setError None ;;
     call (RouterReplace "/auth/login") (routerReplace services "/auth/login"))
    (fun error =>
       log Logger.Error "[Auth] Error handling cross-tab logout:" [error]).

(** [handleStorageChange(e)], given [e.key] and [e.newValue], each a string
    or null. *)
Definition handleStorageChange (key newValue : option string) : Act unit :=
  if match key with Some k => String.eqb k "logout" | None => false end
     && match newValue with Some v => String.eqb v "true" | None => false end
  then
    log Logger.Info "[Auth] Logout detected from another tab" [] ;;
    handleCrossTabLogout
  else ret tt.

Definition login (email password : string) : Act bool :=
  tryFinally
    (tryCatch
       (setLoading true ;;
        setError None ;;
        log Logger.Info "[Auth] Attempting login for:" [JSString email] ;;
        call (LoginUser email password) (loginUser services email password) ;;
        log Logger.Info "[Auth] Login successful for:" [JSString email] ;;
        ret true)
       (fun error =>
          log Logger.Error "[Auth] Login failed for:" [JSString email; error] ;;
          setError (Some "Login failed. Please check your credentials.") ;;
          throw error))
    (setLoading false).

(** [register(userData)], given the three fields of [userData]. *)
Definition register (name email password : string) : Act bool :=
  tryFinally
    (tryCatch
       (setLoading true ;;
        setError None ;;
        log Logger.Info "[Auth] Attempting registration for:" [JSString email] ;;
        call (RegisterUser email password name)
          (registerUser services email password name) ;;
        log Logger.Info "[Auth] Registration successful for:" [JSString email] ;;
        ret true)
       (fun error =>
          log Logger.Error "[Auth] Registration failed for:"
            [JSString email; error] ;;
          setError (Some "Registration failed. Please try again.") ;;
          throw error))
    (setLoading false).

Definition logout : Act unit :=
  tryFinally
    (tryCatch
       (log Logger.Info "[Auth] Starting logout process" [] ;;
        setLoading true ;;
        call AuthLogout (authLogout services) ;;
        setUser None ;;
        setUserProfile (fun _ => None) ;;
        setIsAuthenticated false ;;
        setError None ;;
        log Logger.Info "[Auth] Logout completed successfully" [] ;;
        call (RouterReplace "/auth/login") (routerReplace services "/auth/login"))
       (fun error =>
          log Logger.Error "[Auth] Error during logout:" [error] ;;
          setUser None ;;
          setUserProfile (fun _ => None) ;;
          setIsAuthenticated false ;;
          setError None ;;
          call (RouterReplace "/auth/login")
            (routerReplace services "/auth/login")))
    (setLoading false).

(** [updateUserProfile(updates)], with the [user] and [userProfile] that the
    callback closed over. *)
Definition updateUserProfile (user : option FirebaseUser)
    (userProfile : option Profile) (updates : Profile) : Act unit :=
  tryCatch
    (match user with
     | None => throw (newError "No authenticated user")
     | Some user =>
         setError None ;;
         log Logger.Info "[Auth] Updating user profile:" [JSString (uid user)] ;;
         (if truthy (lookup "profileImageUrl" updates)
             && truthy (match userProfile with
                        | Some p => lookup "profileImageUrl" p
                        | None => JSUndefined
                        end)
             && differs (match userProfile with
                         | Some p => lookup "profileImageUrl" p
                         | None => JSUndefined
                         end)
                  (lookup "profileImageUrl" updates)
          then
            tryCatch
              (log Logger.Debug "[Auth] Deleting old profile image:"
                 [JSString (uid user)] ;;
               call (DeleteProfileImage
                       (match userProfile with
                        | Some p => lookup "profileImageUrl" p
                        | None => JSUndefined
                        end))
                 (deleteProfileImage services
                    (match userProfile with
                     | Some p => lookup "profileImageUrl" p
                     | None => JSUndefined
                     end)))
              (fun error =>
                 log Logger.Warn "[Auth] Could not delete old profile image:"
                   [error])
          else ret tt) ;;
         call (UpdateUserProfile (uid user) updates)
           (updateProfile services (uid user) updates) ;;
         log Logger.Info "[Auth] Profile updated successfully:"
           [JSString (uid user)] ;;
         setUserProfile (fun prev =>
           match prev with
           | Some prev => Some (spread prev updates)
           | None => None
           end)
     end)
    (fun error =>
       log Logger.Error "[Auth] Profile update failed:"
         [match user with Some u => JSString (uid u) | None => JSUndefined end;
          error] ;;
       setError (Some "Failed to update profile. Please try again.") ;;
       throw error).

End Component.

Arguments ui {Ext} _.
Arguments ext {Ext} _.
Arguments effects {Ext} _.
Arguments saveUser {Ext} _ _ _.
Arguments getUser {Ext} _ _.
Arguments clearAllData {Ext} _ _.
Arguments authLogout {Ext} _ _.
Arguments getUserProfile {Ext} _ _ _.
Arguments loginUser {Ext} _ _ _ _.
Arguments registerUser {Ext} _ _ _ _ _.
Arguments deleteProfileImage {Ext} _ _ _.
Arguments updateProfile {Ext} _ _ _ _.
Arguments routerReplace {Ext} _ _ _.
Arguments migrateLocalDataToFirebase {Ext} _ _.
Arguments checkAndMigrateLocalData {Ext} _ _ _.
Arguments onAuthStateChangedListener {Ext} _ _ _.
Arguments handleCrossTabLogout {Ext} _ _.
Arguments handleStorageChange {Ext} _ _ _ _.
Arguments login {Ext} _ _ _ _.
Arguments register {Ext} _ _ _ _ _.
Arguments logout {Ext} _ _.
Arguments updateUserProfile {Ext} _ _ _ _ _.

(** The image that [updateUserProfile] deletes first, if any: the old
    [profileImageUrl], where it and the new one are truthy and differ. *)
Definition replacedImage (userProfile : option Profile) (updates : Profile)
  : option JSValue :=
  let old := match userProfile with
             | Some p => lookup "profileImageUrl" p
             | None => JSUndefined
             end in
  if truthy (lookup "profileImageUrl" updates) && truthy old
     && differs old (lookup "profileImageUrl" updates)
  then Some old else None.

(** The state of a signed-out component that is not loading. *)
Definition signedOut (st : AuthState) : Prop :=
  user st = None /\ userProfile st = None /\ isAuthenticated st = false
  /\ error st = None /\ loading st = false.

(** The calls of [router.replace] among some effects, in order. *)
Fixpoint navigations (effs : list Effect) : list string :=
  match effs with
  | [] => []
  | Called (RouterReplace path) :: rest => path :: navigations rest
  | _ :: rest => navigations rest
  end.

(** The calls of services and router among some effects, in order. *)
Fixpoint calls (effs : list Effect) : list ExternalCall :=
  match effs with
  | [] => []
  | Called c :: rest => c :: calls rest
  | _ :: rest => calls rest
  end.

(** Does the profile have the key? *)
Fixpoint hasKey (key : string) (p : Profile) : bool :=
  match p with
  | [] => false
  | (k, _) :: rest => String.eqb k key || hasKey key rest
  end.

End Auth.

(** ** Further observations *)




Definition sumZ (l : list Z) : Z := fold_right Z.add 0 l.

(** A string, a number or a boolean. *)
Definition isPrimitive (v : JSValue) : bool :=
  match v with
  | JSString _ | JSNumber _ | JSBoolean _ => true
  | _ => false
  end.

(** [{ code: code }]. *)
Definition withCode (code : string) : JSValue :=
  JSObject [("code"%string, JSString code)].

(** [{ maxAttempts: 1, onRetry: faulty }]. *)
Definition oneAttemptFaulty : RetryOptions.t nat :=
  RetryOptions.make (Some 1) None None (Some faulty).

(** [{ maxAttempts: 9, delayMs: 100, backoff: true, onRetry: quiet }]. *)
Definition nineAttempts : RetryOptions.t nat :=
  RetryOptions.make (Some 9) (Some 100) (Some true) (Some quiet).

(** A reading of the clock. *)
Definition sampleClock : string := "2026-11-03T12:34:56.789Z".

(** A user, a profile, a store and two sets of services used as examples:
    the external world counts the calls made. *)
Definition sampleUser : Auth.FirebaseUser :=
  {| Auth.uid := "u1";
     Auth.email := JSString "ann@example.org";
     Auth.displayName := JSNull;
     Auth.photoURL := JSString "" |}.

Definition sampleProfile : Auth.Profile :=
  [("name"%string, JSString "Ann");
   ("profileImageUrl"%string, JSString "old.png")].

Definition freshStore : Auth.Store nat :=
  {| Auth.ui := Auth.initialState; Auth.ext := 0%nat; Auth.effects := [] |}.

(** Every service returns. *)
Definition calmServices : Auth.Services nat :=
  {| Auth.saveUser := fun _ n => (Normal tt, S n);
     Auth.getUser := fun n => (Normal JSNull, S n);
     Auth.clearAllData := fun n => (Normal tt, S n);
     Auth.authLogout := fun n => (Normal tt, S n);
     Auth.getUserProfile := fun _ n => (Normal (Some sampleProfile), S n);
     Auth.loginUser := fun _ _ n => (Normal tt, S n);
     Auth.registerUser := fun _ _ _ n => (Normal tt, S n);
     Auth.deleteProfileImage := fun _ n => (Normal tt, S n);
     Auth.updateProfile := fun _ _ n => (Normal tt, S n);
     Auth.routerReplace := fun _ n => (Normal tt, S n) |}.

(** [AuthService.saveUser] throws; the other services return. *)
Definition offlineServices : Auth.Services nat :=
  {| Auth.saveUser := fun _ n => (Throw (JSString "offline"), S n);
     Auth.getUser := fun n => (Normal JSNull, S n);
     Auth.clearAllData := fun n => (Normal tt, S n);
     Auth.authLogout := fun n => (Normal tt, S n);
     Auth.getUserProfile := fun _ n => (Normal (Some sampleProfile), S n);
     Auth.loginUser := fun _ _ n => (Normal tt, S n);
     Auth.registerUser := fun _ _ _ n => (Normal tt, S n);
     Auth.deleteProfileImage := fun _ n => (Normal tt, S n);
     Auth.updateProfile := fun _ _ n => (Normal tt, S n);
     Auth.routerReplace := fun _ n => (Normal tt, S n) |}.

(** ** Proof automation *)

(** Splits [x :: l = pre ++ y :: post] on whether [pre] is empty. *)
Ltac peel H :=
  let p := fresh "pre" in
  match type of H with
  | _ :: _ = ?pre ++ _ :: _ =>
      destruct pre as [|? p]; simpl in H;
      [ try discriminate H
      | injection H as <- H ]
  | [] = ?pre ++ _ :: _ =>
      destruct pre; discriminate H
  end.


(** Counts the failure at the head of the prefix into the attempt number. *)
Ltac shift_attempt attempt :=
  cbn [fnOutcomes length] in *;
  match goal with
  | |- context [attempt + Z.of_nat (S ?k)] =>
      replace (attempt + Z.of_nat (S k)) with (attempt + 1 + Z.of_nat k) in *
        by lia
  end.

(** Runs a handler of the authentication context: unfolds the handler and
    the combinators, and splits on what each service answers. *)
Ltac auth_reduce :=
  cbn [fst snd Auth.ui Auth.ext Auth.effects Auth.user Auth.userProfile
       Auth.loading Auth.isAuthenticated Auth.error negb andb] in *.

Ltac auth_unfold H :=
  cbv beta iota zeta delta
    [Auth.logout Auth.login Auth.register Auth.updateUserProfile
     Auth.onAuthStateChangedListener Auth.handleStorageChange
     Auth.handleCrossTabLogout Auth.checkAndMigrateLocalData
     Auth.migrateLocalDataToFirebase
     Auth.tryFinally Auth.tryCatch Auth.bind Auth.ret Auth.throw
     Auth.log Auth.call Auth.update Auth.setUser Auth.setUserProfile
     Auth.setLoading Auth.setIsAuthenticated Auth.setError] in H;
  auth_reduce.

Ltac auth_split f :=
  let c := fresh "c" in
  let e := fresh "ext'" in
  let H := fresh "Hcall" in
  destruct f as [c e] eqn:H; destruct c; auth_reduce.

(** Splits the run [H : r = ...] on what the next service answers. *)
Ltac auth_answer H :=
  match type of H with
  | context [Auth.authLogout ?sv ?e] => auth_split (Auth.authLogout sv e)
  | context [Auth.routerReplace ?sv ?p ?e] =>
      auth_split (Auth.routerReplace sv p e)
  | context [Auth.loginUser ?sv ?a ?b ?e] =>
      auth_split (Auth.loginUser sv a b e)
  | context [Auth.registerUser ?sv ?a ?b ?c ?e] =>
      auth_split (Auth.registerUser sv a b c e)
  | context [Auth.saveUser ?sv ?a ?e] => auth_split (Auth.saveUser sv a e)
  | context [Auth.getUserProfile ?sv ?a ?e] =>
      auth_split (Auth.getUserProfile sv a e)
  | context [Auth.getUser ?sv ?e] => auth_split (Auth.getUser sv e)
  | context [Auth.clearAllData ?sv ?e] => auth_split (Auth.clearAllData sv e)
  | context [Auth.deleteProfileImage ?sv ?a ?e] =>
      auth_split (Auth.deleteProfileImage sv a e)
  | context [Auth.updateProfile ?sv ?a ?b ?e] =>
      auth_split (Auth.updateProfile sv a b e)
  end.

(** Splits also on the values a handler branches on. *)
Ltac auth_step H :=
  first
    [ auth_answer H
    | match type of H with
      | context [match ?x with Some _ => _ | None => _ end] =>
          is_var x; destruct x; auth_reduce
      | context [if negb (Auth.truthy ?v) then _ else _] =>
          destruct (Auth.truthy v); auth_reduce
      end ].

(** Names the run of a handler, computes it case by case, and puts the
    result back in the goal. *)
Ltac auth_run handler :=
  let r := fresh "r" in
  let H := fresh "Hrun" in
  remember handler as r eqn:H;
  auth_unfold H;
  repeat auth_step H;
  subst r;
  repeat match goal with u : unit |- _ => destruct u end;
  auth_reduce.

(** * Proofs *)

(** ** The loop settles, and [Runs] describes how *)

Section Adequacy.

Context {T World : Type}.
Variable fn : @Operation T World.
Variables maxAttempts delayMs : Z.
Variable backoff : bool.
Variable onRetry : option (@Callback World).

(** With the attempts that are left as fuel, the function takes the path
    that the relation describes; in particular it never runs out of fuel. *)
Lemma loop_Runs (fuel : nat) :
  forall attempt lastError w,
    maxAttempts - attempt < Z.of_nat fuel ->
    Runs fn maxAttempts delayMs backoff onRetry attempt lastError w
      (loop fn maxAttempts delayMs backoff onRetry fuel attempt lastError w).
Proof.
  induction fuel as [|fuel IH]; intros attempt lastError w Hfuel.
  - simpl. destruct (Z.leb_spec attempt maxAttempts); [lia|].
    now apply Runs_exit.
  - simpl. destruct (Z.leb_spec attempt maxAttempts) as [Hle|Hgt].
    2: now apply Runs_exit.
    unfold bind, await. destruct (fn w) as [[value|error] w1] eqn:Hfn; simpl.
    + now apply Runs_return.
    + destruct (Z.eqb_spec attempt maxAttempts) as [Heq|Hne]; simpl.
      * now apply Runs_exhausted.
      * assert (Hlt : attempt < maxAttempts) by lia.
        assert (Hnext : maxAttempts - (attempt + 1) < Z.of_nat fuel) by lia.
        fold (chosenDelay delayMs backoff attempt).
        destruct onRetry as [cb|] eqn:Hcb; simpl.
        -- unfold call.
           destruct (cb attempt error w1) as [[[]|thrown] w2] eqn:Hcall; simpl.
           ++ eapply Runs_retry_observed; eauto.
           ++ eapply Runs_observer_throws; eauto.
        -- eapply Runs_retry; eauto.
Qed.

End Adequacy.

Lemma retryWithBackoff_Runs {T World : Type} (fn : @Operation T World)
    (options : RetryOptions.t World) (w : World) :
  Runs fn (maxAttemptsOf options) (delayMsOf options) (backoffOf options)
    (RetryOptions.onRetry options) 1 JSUndefined w
    (retryWithBackoff fn (Some options) w).
Proof.
  unfold retryWithBackoff; simpl.
  apply loop_Runs. unfold maxAttemptsOf. lia.
Qed.

Lemma last_cons {A : Type} (l : list A) (a d : A) :
  last (a :: l) d = last l a.
Proof.
  revert a d. induction l as [|b l IH]; intros a d; [reflexivity|].
  change (last (a :: b :: l) d) with (last (b :: l) d).
  now rewrite !IH.
Qed.


(** ** Paths through the loop *)

Section Paths.

Context {T World : Type}.
Variable fn : @Operation T World.
Variables maxAttempts delayMs : Z.
Variable backoff : bool.
Variable onRetry : option (@Callback World).

(** Every path ends settled. *)
Lemma Runs_settled attempt lastError w r :
  Runs fn maxAttempts delayMs backoff onRetry attempt lastError w r ->
  exists c, outcome r = Some c.
Proof.
  induction 1; simpl; eauto.
Qed.

(** Where all the attempts that are left were made and failed, the last
    of their errors is what the loop throws. *)
Lemma Runs_last_error attempt lastError w r :
  Runs fn maxAttempts delayMs backoff onRetry attempt lastError w r ->
  forall errors,
    attempt <= maxAttempts ->
    fnOutcomes (trace r) = map Throw errors ->
    Z.of_nat (length errors) = maxAttempts - attempt + 1 ->
    outcome r = Some (Throw (last errors lastError)).
Proof.
  induction 1 as
    [ attempt lastError w Hgt
    | attempt lastError w value w1 Hle Hfn
    | attempt lastError w error w1 Heq Hfn
    | attempt lastError w error w1 cb thrown w2 Hlt Hfn Hcb Hcall
    | attempt lastError w error w1 cb w2 r Hlt Hfn Hcb Hcall Hrun IH
    | attempt lastError w error w1 r Hlt Hfn Hcb Hrun IH ];
    intros errors Hle' Hout Hlen; simpl in *.
  - lia.
  - destruct errors; discriminate.
  - destruct errors as [|e [|e' errors]]; try discriminate.
    now injection Hout as ->.
  - destruct errors as [|e [|e' errors]]; try discriminate.
    simpl in Hlen. lia.
  - destruct errors as [|e errors]; [discriminate|].
    injection Hout as -> Hout. rewrite last_cons.
    apply IH; [lia|assumption|simpl in Hlen; lia].
  - destruct errors as [|e errors]; [discriminate|].
    injection Hout as -> Hout. rewrite last_cons.
    apply IH; [lia|assumption|simpl in Hlen; lia].
Qed.



(** An operation that always fails, watched by an observer that never
    throws, is tried on every attempt that is left. *)
Lemma Runs_bounded attempt lastError w r :
  Runs fn maxAttempts delayMs backoff onRetry attempt lastError w r ->
  alwaysFails fn ->
  neverThrows onRetry ->
  attempt <= maxAttempts ->
  length (fnOutcomes (trace r)) = Z.to_nat (maxAttempts - attempt + 1)
  /\ map fst (onRetryCalls (trace r))
     = (if configured onRetry
        then attemptNumbers attempt (Z.to_nat (maxAttempts - attempt))
        else [])
  /\ length (delays (trace r)) = Z.to_nat (maxAttempts - attempt).
Proof.
  intros Hruns Hfails Hquiet.
  induction Hruns as
    [ attempt lastError w Hgt
    | attempt lastError w value w1 Hle Hfn
    | attempt lastError w error w1 Heq Hfn
    | attempt lastError w error w1 cb thrown w2 Hlt Hfn Hcb Hcall
    | attempt lastError w error w1 cb w2 r Hlt Hfn Hcb Hcall Hrun IH
    | attempt lastError w error w1 r Hlt Hfn Hcb Hrun IH ];
    intros Hle'; simpl in *.
  - lia.
  - specialize (Hfails w). rewrite Hfn in Hfails. discriminate.
  - subst attempt. replace (maxAttempts - maxAttempts) with 0 by lia.
    simpl. repeat split. now destruct onRetry.
  - subst onRetry. specialize (Hquiet attempt error w1).
    rewrite Hcall in Hquiet. discriminate.
  - destruct IH as (Hn & Hc & Hd); [lia|].
    replace (Z.to_nat (maxAttempts - attempt))
      with (S (Z.to_nat (maxAttempts - (attempt + 1)))) by lia.
    subst onRetry. simpl. rewrite Hn, Hc, Hd.
    split; [lia|split; reflexivity].
  - destruct IH as (Hn & Hc & Hd); [lia|].
    subst onRetry. simpl in *. rewrite Hn, Hd.
    split; [lia|split; [assumption|lia]].
Qed.

(** With an attempt to make and an observer that never throws, the loop
    settles the way the last invocation of the operation did. *)
Lemma Runs_outcome_is_last attempt lastError w r :
  Runs fn maxAttempts delayMs backoff onRetry attempt lastError w r ->
  neverThrows onRetry ->
  attempt <= maxAttempts ->
  exists earlier c,
    outcome r = Some c /\ fnOutcomes (trace r) = earlier ++ [c].
Proof.
  intros Hruns Hquiet.
  induction Hruns as
    [ attempt lastError w Hgt
    | attempt lastError w value w1 Hle Hfn
    | attempt lastError w error w1 Heq Hfn
    | attempt lastError w error w1 cb thrown w2 Hlt Hfn Hcb Hcall
    | attempt lastError w error w1 cb w2 r Hlt Hfn Hcb Hcall Hrun IH
    | attempt lastError w error w1 r Hlt Hfn Hcb Hrun IH ];
    intros Hle'; simpl in *.
  - lia.
  - now exists [], (Normal value).
  - now exists [], (Throw error).
  - subst onRetry. specialize (Hquiet attempt error w1).
    rewrite Hcall in Hquiet. discriminate.
  - destruct IH as (earlier & c & Ho & Hf); [lia|].
    exists (Throw error :: earlier), c. now rewrite Ho, Hf.
  - destruct IH as (earlier & c & Ho & Hf); [lia|].
    exists (Throw error :: earlier), c. now rewrite Ho, Hf.
Qed.

End Paths.

(** ** Where an event sits in a trace *)

Section Positions.

Context {T World : Type}.
Variable fn : @Operation T World.
Variables maxAttempts delayMs : Z.
Variable backoff : bool.
Variable onRetry : option (@Callback World).

(** A failure of an attempt before the last is followed by the warning
    that names the chosen delay, the observer's call and the delay. *)
Lemma Runs_retry_sequence attempt lastError w r :
  Runs fn maxAttempts delayMs backoff onRetry attempt lastError w r ->
  forall pre e post,
    trace r = pre ++ EvFn (Throw e) :: post ->
    attempt + Z.of_nat (length (fnOutcomes pre)) < maxAttempts ->
    retrySequence (configured onRetry)
      (attempt + Z.of_nat (length (fnOutcomes pre)))
      (chosenDelay delayMs backoff
         (attempt + Z.of_nat (length (fnOutcomes pre))))
      e post.
Proof.
  induction 1 as
    [ attempt lastError w Hgt
    | attempt lastError w value w1 Hle Hfn
    | attempt lastError w error w1 Heq Hfn
    | attempt lastError w error w1 cb thrown w2 Hlt Hfn Hcb Hcall
    | attempt lastError w error w1 cb w2 r Hlt Hfn Hcb Hcall Hrun IH
    | attempt lastError w error w1 r Hlt Hfn Hcb Hrun IH ];
    intros pre e post Htr Hn; simpl in Htr.
  - peel Htr.
  - peel Htr. peel Htr.
  - peel Htr.
    + simpl in Hn. lia.
    + peel Htr. peel Htr.
  - peel Htr.
    + injection Htr as <- <-. simpl. rewrite Z.add_0_r.
      subst onRetry. simpl.
      exists (Throw thrown), []. split; reflexivity.
    + peel Htr. peel Htr. peel Htr.
  - peel Htr.
    + injection Htr as <- <-. simpl. rewrite Z.add_0_r.
      subst onRetry. simpl.
      eexists (Normal tt), _. split; [reflexivity|eexists; reflexivity].
    + peel Htr. peel Htr. peel Htr. shift_attempt attempt. now apply IH.
  - peel Htr.
    + injection Htr as <- <-. simpl. rewrite Z.add_0_r.
      subst onRetry. simpl. eexists; reflexivity.
    + peel Htr. peel Htr. shift_attempt attempt. now apply IH.
Qed.

(** A call of the observer that throws is the last event of the trace,
    and what it threw is what the loop throws. *)
Lemma Runs_observer_abort attempt lastError w r :
  Runs fn maxAttempts delayMs backoff onRetry attempt lastError w r ->
  forall pre n e thrown post,
    trace r = pre ++ EvOnRetry n e (Throw thrown) :: post ->
    post = []
    /\ outcome r = Some (Throw thrown)
    /\ n < maxAttempts
    /\ Z.of_nat (length (fnOutcomes (trace r))) = n - attempt + 1
    /\ Z.of_nat (length (delays (trace r))) = n - attempt.
Proof.
  induction 1 as
    [ attempt lastError w Hgt
    | attempt lastError w value w1 Hle Hfn
    | attempt lastError w error w1 Heq Hfn
    | attempt lastError w error w1 cb thrown' w2 Hlt Hfn Hcb Hcall
    | attempt lastError w error w1 cb w2 r Hlt Hfn Hcb Hcall Hrun IH
    | attempt lastError w error w1 r Hlt Hfn Hcb Hrun IH ];
    intros pre n e thrown post Htr; simpl in Htr.
  - peel Htr.
  - peel Htr. peel Htr.
  - peel Htr. peel Htr. peel Htr.
  - peel Htr. peel Htr. peel Htr.
    + injection Htr as <- <- <- <-. simpl. repeat split; try lia; auto.
    + peel Htr.
  - peel Htr. peel Htr. peel Htr. peel Htr.
    destruct (IH _ _ _ _ _ Htr) as (Hp & Ho & Hb & Hf & Hd).
    simpl. repeat split; auto; lia.
  - peel Htr. peel Htr. peel Htr.
    destruct (IH _ _ _ _ _ Htr) as (Hp & Ho & Hb & Hf & Hd).
    simpl. repeat split; auto; lia.
Qed.

End Positions.

Lemma nth_error_last {A : Type} (l : list A) (d : A) :
  l <> [] -> nth_error l (length l - 1) = Some (last l d).
Proof.
  induction l as [|a [|b l] IH]; intros Hne; [congruence|reflexivity|].
  change (last (a :: b :: l) d) with (last (b :: l) d).
  rewrite <- IH by discriminate. simpl. now rewrite Nat.sub_0_r.
Qed.

(** * The specification's properties of [retryWithBackoff]

    An attempt is an invocation of the operation; what "attempt [k] of a
    run" did is read off the run's trace ([fnOutcomes]). *)

Section Properties.

Context {T World : Type}.
Variable fn : @Operation T World.
Variable options : RetryOptions.t World.
Variable w : World.

(** With an attempt allowed, the operation is invoked in the initial
    world; if it returns there, that is the whole run. *)
Lemma first_invocation_returns (value : T) (w1 : World) :
  1 <= maxAttemptsOf options ->
  fn w = (Normal value, w1) ->
  retryWithBackoff fn (Some options) w
    = mkRun (Some (Normal value)) w1 [EvFn (Normal value)].
Proof.
  intros Hmax Hfn.
  pose proof (retryWithBackoff_Runs fn options w) as Hruns.
  inversion Hruns; subst; try lia; try congruence.
Qed.

(** C5 (success on first try). Where the first invocation of the
    operation returns a value, [retryWithBackoff] returns that value and
    the whole trace is that one invocation: the operation is invoked once,
    no delay is awaited and [onRetry] is not invoked, whatever the
    options. *)
Theorem success_on_first_try (value : T) :
  nth_error (fnOutcomes (trace (retryWithBackoff fn (Some options) w))) 0
    = Some (Normal value) ->
  outcome (retryWithBackoff fn (Some options) w) = Some (Normal value)
  /\ trace (retryWithBackoff fn (Some options) w) = [EvFn (Normal value)]
  /\ length (fnOutcomes (trace (retryWithBackoff fn (Some options) w))) = 1%nat
  /\ delays (trace (retryWithBackoff fn (Some options) w)) = []
  /\ onRetryCalls (trace (retryWithBackoff fn (Some options) w)) = [].
Proof.
  intros Hfirst.
  pose proof (retryWithBackoff_Runs fn options w) as Hruns.
  remember (retryWithBackoff fn (Some options) w) as r eqn:Hr.
  clear Hr. inversion Hruns; subst; simpl in *; try discriminate.
  injection Hfirst as ->. repeat split.
Qed.

(** C9 (no attempt allowed). With [maxAttempts <= 0] the loop body never
    runs: neither the operation nor [onRetry] nor the logger is called, and
    the initial, undefined [lastError] is thrown. *)
Theorem no_attempts_throws_undefined :
  maxAttemptsOf options <= 0 ->
  retryWithBackoff fn (Some options) w
    = mkRun (Some (Throw JSUndefined)) w [].
Proof.
  intros Hmax. unfold retryWithBackoff; simpl.
  fold (maxAttemptsOf options).
  destruct (Z.to_nat (maxAttemptsOf options)); simpl;
    destruct (Z.leb_spec 1 (maxAttemptsOf options)); try lia; reflexivity.
Qed.

(** C7 (defaults). The empty configuration, and no configuration at all,
    run exactly as [{ maxAttempts: 3, delayMs: 1000, backoff: true }] does;
    more generally every omitted option may be written out as its
    default. *)
Theorem empty_options_are_defaults :
  retryWithBackoff fn (Some RetryOptions.empty) w
    = retryWithBackoff fn (Some documentedDefaults) w
  /\ retryWithBackoff fn None w
     = retryWithBackoff fn (Some documentedDefaults) w
  /\ retryWithBackoff fn (Some options) w
     = retryWithBackoff fn (Some (withDefaults options)) w.
Proof.
  repeat split.
Qed.

(** C2 (last-error propagation). Where the operation was attempted
    [maxAttempts = N >= 1] times and failed each time, the [k]-th time
    with [errors_k], the error thrown to the caller is [errors_N] itself. *)
Theorem last_error_propagates (errors : list JSValue) :
  1 <= maxAttemptsOf options ->
  fnOutcomes (trace (retryWithBackoff fn (Some options) w))
    = map Throw errors ->
  length errors = Z.to_nat (maxAttemptsOf options) ->
  exists e,
    nth_error errors (Z.to_nat (maxAttemptsOf options) - 1) = Some e
    /\ outcome (retryWithBackoff fn (Some options) w) = Some (Throw e).
Proof.
  intros Hmax Hfailed Hcount.
  exists (last errors JSUndefined). split.
  - rewrite <- Hcount. apply nth_error_last.
    destruct errors; [simpl in Hcount; lia|discriminate].
  - eapply Runs_last_error.
    + apply retryWithBackoff_Runs.
    + lia.
    + assumption.
    + lia.
Qed.


(** C6 (one outcome). With [maxAttempts >= 1] and an observer that does
    not throw, [retryWithBackoff] settles: it returns a value or throws an
    error, never both; and it settles the way the last invocation of the
    operation did, so no failure of that invocation is swallowed. *)
Theorem settles_exactly_one_way :
  1 <= maxAttemptsOf options ->
  neverThrows (RetryOptions.onRetry options) ->
  ((exists value,
      outcome (retryWithBackoff fn (Some options) w) = Some (Normal value))
   \/ (exists error,
         outcome (retryWithBackoff fn (Some options) w) = Some (Throw error)))
  /\ ~ ((exists value,
          outcome (retryWithBackoff fn (Some options) w) = Some (Normal value))
        /\ (exists error,
              outcome (retryWithBackoff fn (Some options) w)
                = Some (Throw error)))
  /\ exists earlier c,
       outcome (retryWithBackoff fn (Some options) w) = Some c
       /\ fnOutcomes (trace (retryWithBackoff fn (Some options) w))
          = earlier ++ [c].
Proof.
  intros Hmax Hquiet.
  destruct (Runs_outcome_is_last _ _ _ _ _ _ _ _ _
              (retryWithBackoff_Runs fn options w) Hquiet Hmax)
    as (earlier & c & Ho & Hf).
  repeat split.
  - rewrite Ho. destruct c as [value|error]; eauto.
  - intros [[value Hv] [error He]]. congruence.
  - eauto.
Qed.

(** C3 (delay and observer). Every failure [e] of an attempt
    [n < maxAttempts] is followed at once by the warning that names the
    chosen delay, [delayMs * n] with backoff and [delayMs] without, then
    by [onRetry(n, e)] where an observer is configured, and only then,
    unless the observer threw, by the delay of that length. *)
Theorem retry_delay_and_observer_order
    (pre post : list (Event T)) (n : Z) (e : JSValue) :
  trace (retryWithBackoff fn (Some options) w) = pre ++ EvFn (Throw e) :: post ->
  n = 1 + Z.of_nat (length (fnOutcomes pre)) ->
  n < maxAttemptsOf options ->
  retrySequence (configured (RetryOptions.onRetry options)) n
    (if backoffOf options then delayMsOf options * n else delayMsOf options)
    e post.
Proof.
  intros Htrace -> Hretriable.
  exact (Runs_retry_sequence _ _ _ _ _ _ _ _ _
           (retryWithBackoff_Runs fn options w) _ _ _ Htrace Hretriable).
Qed.

(** C8 (the observer throws). Where [onRetry(n, e)] throws, nothing
    follows it in the trace, so the delay of attempt [n] is not awaited
    and the operation is not invoked again, and what the observer threw is
    thrown to the caller; [n] attempts and [n - 1] delays were made. *)
Theorem observer_failure_aborts
    (pre post : list (Event T)) (n : Z) (e thrown : JSValue) :
  trace (retryWithBackoff fn (Some options) w)
    = pre ++ EvOnRetry n e (Throw thrown) :: post ->
  post = []
  /\ outcome (retryWithBackoff fn (Some options) w) = Some (Throw thrown)
  /\ n < maxAttemptsOf options
  /\ Z.of_nat (length (fnOutcomes (trace (retryWithBackoff fn (Some options) w))))
     = n
  /\ Z.of_nat (length (delays (trace (retryWithBackoff fn (Some options) w))))
     = n - 1.
Proof.
  intros Htrace.
  destruct (Runs_observer_abort _ _ _ _ _ _ _ _ _
              (retryWithBackoff_Runs fn options w) _ _ _ _ _ Htrace)
    as (Hp & Ho & Hb & Hf & Hd).
  repeat split; try assumption; lia.
Qed.

(** C1, amended (bounded attempts). With [maxAttempts = N >= 1], an
    operation that fails on every attempt and an observer that, where
    configured, does not itself throw: the operation is invoked [N] times,
    [onRetry] is invoked for the attempts 1 to [N - 1] in that order and
    [N - 1] delays are awaited; for [N = 1] that is one invocation, no call
    of [onRetry] and no delay. *)
Theorem bounded_attempts :
  1 <= maxAttemptsOf options ->
  alwaysFails fn ->
  neverThrows (RetryOptions.onRetry options) ->
  boundedAttempts (configured (RetryOptions.onRetry options))
    (maxAttemptsOf options)
    (trace (retryWithBackoff fn (Some options) w))
  /\ (maxAttemptsOf options = 1 ->
      length (fnOutcomes (trace (retryWithBackoff fn (Some options) w))) = 1%nat
      /\ onRetryCalls (trace (retryWithBackoff fn (Some options) w)) = []
      /\ delays (trace (retryWithBackoff fn (Some options) w)) = []).
Proof.
  intros Hmax Hfails Hquiet.
  destruct (Runs_bounded _ _ _ _ _ _ _ _ _
              (retryWithBackoff_Runs fn options w) Hfails Hquiet Hmax)
    as (Hn & Hc & Hd).
  replace (maxAttemptsOf options - 1 + 1) with (maxAttemptsOf options) in Hn
    by lia.
  split; [now repeat split|].
  intros Hone. rewrite Hone in *. simpl in *.
  repeat split.
  - assumption.
  - destruct (onRetryCalls _); [reflexivity|].
    destruct (configured _); discriminate.
  - now destruct (delays _).
Qed.

End Properties.

(** * The classifier [isNetworkError] *)

Section Classifier.

Local Open Scope string_scope.

(** No code unit of a lowered string is one of A-Z. *)
Lemma toLowerCaseUnit_not_upper (c : ascii) :
  isUpperAscii (toLowerCaseUnit c) = false.
Proof.
  destruct c as [[] [] [] [] [] [] [] []]; reflexivity.
Qed.

(** So a pattern that starts with one of A-Z occurs in no lowered string. *)
Lemma includes_upper_false (s : string) (c : ascii) (pattern : string) :
  isUpperAscii c = true ->
  includes (toLowerCase s) (String c pattern) = false.
Proof.
  intros Hupper. induction s as [|a s IH]; [reflexivity|].
  cbn [toLowerCase includes prefix].
  destruct (ascii_dec c (toLowerCaseUnit a)) as [Heq|Hne].
  - rewrite Heq, toLowerCaseUnit_not_upper in Hupper. discriminate.
  - exact IH.
Qed.

(** On a lowered message the seven entries find what the five lower-case
    ones find. *)
Lemma lowered_patterns (s : string) :
  existsb (fun msg => includes (toLowerCase s) msg) networkErrorMessages
  = existsb (fun msg => includes (toLowerCase s) msg) lowercasePatterns.
Proof.
  unfold networkErrorMessages, lowercasePatterns.
  cbn [existsb].
  rewrite !(includes_upper_false s "E") by reflexivity.
  now rewrite !orb_false_r.
Qed.

Lemma isNetworkError_string (error : JSValue) (message : string) :
  optionalMessage error = JSString message ->
  isNetworkError error
  = Normal (existsb (fun msg => includes (toLowerCase message) msg)
              lowercasePatterns).
Proof.
  intros Hmessage. unfold isNetworkError. rewrite Hmessage.
  cbn [optionalToLowerCase orEmpty].
  now rewrite lowered_patterns.
Qed.

(** C10, amended. [isNetworkError] returns true exactly when the error
    has a string message that, lowered, contains one of the five
    lower-case patterns; the entries [ERR_NETWORK] and
    [ERR_INTERNET_DISCONNECTED] occur in no lowered message; and for an
    error that is null or undefined, or whose message is, it returns
    false without throwing. *)
Theorem isNetworkError_lowercase_patterns (error : JSValue) :
  (isNetworkError error = Normal true <->
   exists message,
     optionalMessage error = JSString message
     /\ exists pattern,
          In pattern lowercasePatterns
          /\ includes (toLowerCase message) pattern = true)
  /\ (forall s,
        includes (toLowerCase s) "ERR_NETWORK" = false
        /\ includes (toLowerCase s) "ERR_INTERNET_DISCONNECTED" = false)
  /\ (isNullish error = true \/ isNullish (optionalMessage error) = true ->
      isNetworkError error = Normal false).
Proof.
  repeat split.
  - intros Htrue.
    destruct (optionalMessage error) as [| | b | n | message | props] eqn:Hm;
      try (unfold isNetworkError in Htrue; rewrite Hm in Htrue; discriminate).
    rewrite (isNetworkError_string _ _ Hm) in Htrue.
    exists message. split; [reflexivity|].
    apply existsb_exists. injection Htrue as Htrue. exact Htrue.
  - intros (message & Hm & Hpattern).
    rewrite (isNetworkError_string _ _ Hm). f_equal.
    apply existsb_exists. exact Hpattern.
  - now apply includes_upper_false.
  - now apply includes_upper_false.
  - intros [Herror|Hmessage].
    + destruct error; try discriminate; reflexivity.
    + unfold isNetworkError.
      destruct (optionalMessage error); try discriminate; reflexivity.
Qed.

End Classifier.

(** * The properties at concrete runs *)

Section Instances.

(** The scenario of the specification: [E1], [E2], then 42, with
    [{ maxAttempts: 5, delayMs: 100, backoff: true }]. *)
Example spec_scenario :
  retryWithBackoff flaky (Some fiveAttempts) 0%nat
  = mkRun (Some (Normal 42)) 3%nat
      [ EvFn (Throw (JSString "E1"));
        EvLoggerWarn 1 100 (JSString "E1");
        EvOnRetry 1 (JSString "E1") (Normal tt);
        EvSetTimeout 100;
        EvFn (Throw (JSString "E2"));
        EvLoggerWarn 2 200 (JSString "E2");
        EvOnRetry 2 (JSString "E2") (Normal tt);
        EvSetTimeout 200;
        EvFn (Normal 42) ].
Proof.
  reflexivity.
Qed.

(** Exhaustion: the third error is thrown, after two constant delays. *)
Example exhaustion_scenario :
  retryWithBackoff failing (Some threeAttempts) 0%nat
  = mkRun (Some (Throw (JSNumber 3))) 3%nat
      [ EvFn (Throw (JSNumber 1));
        EvLoggerWarn 1 1000 (JSNumber 1);
        EvOnRetry 1 (JSNumber 1) (Normal tt);
        EvSetTimeout 1000;
        EvFn (Throw (JSNumber 2));
        EvLoggerWarn 2 1000 (JSNumber 2);
        EvOnRetry 2 (JSNumber 2) (Normal tt);
        EvSetTimeout 1000;
        EvFn (Throw (JSNumber 3));
        EvLoggerError 3 (JSNumber 3) ].
Proof.
  reflexivity.
Qed.

Lemma failing_alwaysFails : alwaysFails failing.
Proof.
  intros w. reflexivity.
Qed.

Lemma quiet_neverThrows : neverThrows (Some quiet).
Proof.
  intros attempt error w. reflexivity.
Qed.

(** C1 as stated fails where the observer throws: the operation fails on
    every attempt and [maxAttempts] is 2, yet the operation is invoked
    once, not twice, and no delay is awaited. *)
Lemma bounded_attempts_faulty_observer :
  1 <= maxAttemptsOf twoAttemptsFaulty
  /\ alwaysFails failing
  /\ length (fnOutcomes
               (trace (retryWithBackoff failing (Some twoAttemptsFaulty) 0%nat)))
     = 1%nat
  /\ delays (trace (retryWithBackoff failing (Some twoAttemptsFaulty) 0%nat))
     = []
  /\ ~ boundedAttempts (configured (RetryOptions.onRetry twoAttemptsFaulty))
         (maxAttemptsOf twoAttemptsFaulty)
         (trace (retryWithBackoff failing (Some twoAttemptsFaulty) 0%nat)).
Proof.
  split; [cbn; lia|].
  split; [exact failing_alwaysFails|].
  split; [reflexivity|].
  split; [reflexivity|].
  intros [Hcount _]. vm_compute in Hcount. discriminate.
Qed.

Lemma bounded_attempts_witness :
  boundedAttempts true 3
    (trace (retryWithBackoff failing (Some threeAttempts) 0%nat))
  /\ (maxAttemptsOf threeAttempts = 1 ->
      length (fnOutcomes
                (trace (retryWithBackoff failing (Some threeAttempts) 0%nat)))
        = 1%nat
      /\ onRetryCalls
           (trace (retryWithBackoff failing (Some threeAttempts) 0%nat)) = []
      /\ delays (trace (retryWithBackoff failing (Some threeAttempts) 0%nat))
         = []).
Proof.
  apply (bounded_attempts failing threeAttempts 0%nat).
  - cbn; lia.
  - intros w. reflexivity.
  - intros attempt error w. reflexivity.
Defined.

Lemma last_error_propagates_witness :
  exists e,
    nth_error [JSNumber 1; JSNumber 2; JSNumber 3]
      (Z.to_nat (maxAttemptsOf threeAttempts) - 1) = Some e
    /\ outcome (retryWithBackoff failing (Some threeAttempts) 0%nat)
       = Some (Throw e).
Proof.
  apply (last_error_propagates failing threeAttempts 0%nat
           [JSNumber 1; JSNumber 2; JSNumber 3]).
  - cbn; lia.
  - reflexivity.
  - reflexivity.
Defined.

Lemma retry_delay_and_observer_order_witness :
  retrySequence true 2 200 (JSString "E2")
    [ EvLoggerWarn 2 200 (JSString "E2");
      EvOnRetry 2 (JSString "E2") (Normal tt);
      EvSetTimeout 200;
      EvFn (Normal 42) ].
Proof.
  apply (retry_delay_and_observer_order flaky fiveAttempts 0%nat
           [ EvFn (Throw (JSString "E1"));
             EvLoggerWarn 1 100 (JSString "E1");
             EvOnRetry 1 (JSString "E1") (Normal tt);
             EvSetTimeout 100 ]).
  - reflexivity.
  - reflexivity.
  - cbn; lia.
Defined.




Lemma success_on_first_try_witness :
  outcome (retryWithBackoff steady (Some fiveAttempts) 0%nat) = Some (Normal 7)
  /\ trace (retryWithBackoff steady (Some fiveAttempts) 0%nat)
     = [EvFn (Normal 7)]
  /\ length (fnOutcomes (trace (retryWithBackoff steady (Some fiveAttempts) 0%nat)))
     = 1%nat
  /\ delays (trace (retryWithBackoff steady (Some fiveAttempts) 0%nat)) = []
  /\ onRetryCalls (trace (retryWithBackoff steady (Some fiveAttempts) 0%nat)) = [].
Proof.
  apply (success_on_first_try steady fiveAttempts 0%nat 7).
  reflexivity.
Defined.

Lemma settles_exactly_one_way_witness :
  ((exists value,
      outcome (retryWithBackoff flaky (Some fiveAttempts) 0%nat)
        = Some (Normal value))
   \/ (exists error,
         outcome (retryWithBackoff flaky (Some fiveAttempts) 0%nat)
           = Some (Throw error)))
  /\ ~ ((exists value,
          outcome (retryWithBackoff flaky (Some fiveAttempts) 0%nat)
            = Some (Normal value))
        /\ (exists error,
              outcome (retryWithBackoff flaky (Some fiveAttempts) 0%nat)
                = Some (Throw error)))
  /\ exists earlier c,
       outcome (retryWithBackoff flaky (Some fiveAttempts) 0%nat) = Some c
       /\ fnOutcomes (trace (retryWithBackoff flaky (Some fiveAttempts) 0%nat))
          = earlier ++ [c].
Proof.
  apply (settles_exactly_one_way flaky fiveAttempts 0%nat).
  - cbn; lia.
  - intros attempt error w. reflexivity.
Defined.

Lemma observer_failure_aborts_witness :
  (@nil (Event Z)) = []
  /\ outcome (retryWithBackoff failing (Some twoAttemptsFaulty) 0%nat)
     = Some (Throw (JSString "observer failed"))
  /\ 1 < maxAttemptsOf twoAttemptsFaulty
  /\ Z.of_nat (length (fnOutcomes
                         (trace (retryWithBackoff failing
                                   (Some twoAttemptsFaulty) 0%nat)))) = 1
  /\ Z.of_nat (length (delays
                         (trace (retryWithBackoff failing
                                   (Some twoAttemptsFaulty) 0%nat)))) = 1 - 1.
Proof.
  apply (observer_failure_aborts failing twoAttemptsFaulty 0%nat
           [ EvFn (Throw (JSNumber 1)); EvLoggerWarn 1 1000 (JSNumber 1) ]
           [] 1 (JSNumber 1) (JSString "observer failed")).
  reflexivity.
Defined.

Lemma no_attempts_throws_undefined_witness :
  retryWithBackoff steady (Some noAttempts) 0%nat
  = mkRun (Some (Throw JSUndefined)) 0%nat [].
Proof.
  apply (no_attempts_throws_undefined steady noAttempts 0%nat).
  cbn; lia.
Defined.

(** C10 as stated fails on a message that is not a string and not
    nullish: [{ message: 42 }] has no string message, and the call
    [toLowerCase()] on 42 throws. *)
Lemma isNetworkError_number_message_throws :
  hasStringMessage (JSObject [("message"%string, JSNumber 42)]) = false
  /\ isNetworkError (JSObject [("message"%string, JSNumber 42)]) = Throw notAFunction
  /\ isNetworkError (JSObject [("message"%string, JSNumber 42)]) <> Normal false.
Proof.
  repeat split. discriminate.
Qed.

Lemma isNetworkError_lowercase_patterns_witness :
  isNetworkError (newError "Network Request Failed") = Normal true
  /\ isNetworkError JSNull = Normal false.
Proof.
  split.
  - apply (proj1 (isNetworkError_lowercase_patterns
                    (newError "Network Request Failed"))).
    exists "Network Request Failed"%string. split; [reflexivity|].
    exists "network request failed"%string. split; [now left|reflexivity].
  - apply (proj2 (proj2 (isNetworkError_lowercase_patterns JSNull))).
    left. reflexivity.
Defined.

End Instances.


(** * Further properties of [retryWithBackoff] *)

Section MorePaths.

Context {T World : Type}.
Variable fn : @Operation T World.
Variables maxAttempts delayMs : Z.
Variable backoff : bool.
Variable onRetry : option (@Callback World).

Lemma Runs_counts_bounded attempt lastError w r :
  Runs fn maxAttempts delayMs backoff onRetry attempt lastError w r ->
  (length (fnOutcomes (trace r)) <= Z.to_nat (maxAttempts - attempt + 1))%nat
  /\ (length (delays (trace r)) <= Z.to_nat (maxAttempts - attempt))%nat
  /\ (length (onRetryCalls (trace r)) <= Z.to_nat (maxAttempts - attempt))%nat.
Proof.
  induction 1; simpl; repeat split; try lia.
Qed.


Lemma Runs_unobserved attempt lastError w r :
  Runs fn maxAttempts delayMs backoff onRetry attempt lastError w r ->
  onRetry = None ->
  onRetryCalls (trace r) = [].
Proof.
  induction 1; intros Hnone; simpl; try reflexivity; try congruence; auto.
Qed.

Lemma Runs_observer_arguments attempt lastError w r :
  Runs fn maxAttempts delayMs backoff onRetry attempt lastError w r ->
  forall i a e,
    nth_error (onRetryCalls (trace r)) i = Some (a, e) ->
    a = attempt + Z.of_nat i
    /\ nth_error (fnOutcomes (trace r)) i = Some (Throw e).
Proof.
  induction 1 as
    [ attempt lastError w Hgt
    | attempt lastError w value w1 Hle Hfn
    | attempt lastError w error w1 Heq Hfn
    | attempt lastError w error w1 cb thrown w2 Hlt Hfn Hcb Hcall
    | attempt lastError w error w1 cb w2 r Hlt Hfn Hcb Hcall Hrun IH
    | attempt lastError w error w1 r Hlt Hfn Hcb Hrun IH ];
    intros i a e Hi; simpl in *.
  - destruct i; discriminate.
  - destruct i; discriminate.
  - destruct i; discriminate.
  - destruct i as [|[|i]]; try discriminate.
    injection Hi as <- <-. split; [lia|reflexivity].
  - destruct i as [|i]; simpl in Hi.
    + injection Hi as <- <-. split; [lia|reflexivity].
    + destruct (IH _ _ _ Hi) as [-> Hn]. split; [lia|assumption].
  - rewrite (Runs_unobserved _ _ _ _ Hrun Hcb) in Hi. destruct i; discriminate.
Qed.

Lemma Runs_thrown_origin attempt lastError w r :
  Runs fn maxAttempts delayMs backoff onRetry attempt lastError w r ->
  forall e,
    outcome r = Some (Throw e) ->
    (maxAttempts < attempt /\ e = lastError /\ trace r = [])
    \/ (exists pre,
          trace r = pre ++ [EvFn (Throw e); EvLoggerError maxAttempts e])
    \/ (exists pre n e0, trace r = pre ++ [EvOnRetry n e0 (Throw e)]).
Proof.
  induction 1 as
    [ attempt lastError w Hgt
    | attempt lastError w value w1 Hle Hfn
    | attempt lastError w error w1 Heq Hfn
    | attempt lastError w error w1 cb thrown w2 Hlt Hfn Hcb Hcall
    | attempt lastError w error w1 cb w2 r Hlt Hfn Hcb Hcall Hrun IH
    | attempt lastError w error w1 r Hlt Hfn Hcb Hrun IH ];
    intros e He; simpl in *.
  - injection He as <-. now left.
  - discriminate.
  - injection He as <-. right; left. now exists [].
  - injection He as <-. right; right.
    now exists [EvFn (Throw error);
                EvLoggerWarn attempt (chosenDelay delayMs backoff attempt) error],
      attempt, error.
  - destruct (IH _ He) as [(Hgt & _)|[(pre & ->)|(pre & n & e0 & ->)]].
    + lia.
    + right; left. eexists (_ :: _ :: _ :: _ :: pre). reflexivity.
    + right; right. eexists (_ :: _ :: _ :: _ :: pre), n, e0. reflexivity.
  - destruct (IH _ He) as [(Hgt & _)|[(pre & ->)|(pre & n & e0 & ->)]].
    + lia.
    + right; left. eexists (_ :: _ :: _ :: pre). reflexivity.
    + right; right. eexists (_ :: _ :: _ :: pre), n, e0. reflexivity.
Qed.

(** The delays of a run follow the schedule of its attempts. *)
Lemma Runs_schedule attempt lastError w r :
  Runs fn maxAttempts delayMs backoff onRetry attempt lastError w r ->
  delays (trace r)
  = map (chosenDelay delayMs backoff)
      (attemptNumbers attempt (length (delays (trace r)))).
Proof.
  induction 1; simpl; try reflexivity; now f_equal.
Qed.

(** The relation is a function of where the loop is entered. *)
Lemma Runs_functional attempt lastError w r :
  Runs fn maxAttempts delayMs backoff onRetry attempt lastError w r ->
  forall r',
    Runs fn maxAttempts delayMs backoff onRetry attempt lastError w r' ->
    r = r'.
Proof.
  induction 1 as
    [ attempt lastError w Hgt
    | attempt lastError w value w1 Hle Hfn
    | attempt lastError w error w1 Heq Hfn
    | attempt lastError w error w1 cb thrown w2 Hlt Hfn Hcb Hcall
    | attempt lastError w error w1 cb w2 r Hlt Hfn Hcb Hcall Hrun IH
    | attempt lastError w error w1 r Hlt Hfn Hcb Hrun IH ];
    intros r' Hr'; inversion Hr'; subst; try lia; try congruence.
  - match goal with H : Some _ = Some _ |- _ => injection H as <- end.
    match goal with H : fn w = (Throw _, _) |- _ =>
      rewrite Hfn in H; injection H as <- <- end.
    match goal with H : cb attempt error w1 = _ |- _ =>
      rewrite Hcall in H; injection H as <- end.
    match goal with H : Runs _ _ _ _ _ _ _ _ ?r0 |- _ = mkRun (outcome ?r0) _ _ =>
      now rewrite (IH _ H) end.
  - match goal with H : fn w = (Throw _, _) |- _ =>
      rewrite Hfn in H; injection H as <- <- end.
    match goal with H : Runs _ _ _ _ _ _ _ _ ?r0 |- _ = mkRun (outcome ?r0) _ _ =>
      now rewrite (IH _ H) end.
Qed.

End MorePaths.

Lemma Runs_more_attempts {T World : Type} (fn : @Operation T World)
    (N N' delayMs : Z) (backoff : bool) (onRetry : option (@Callback World))
    attempt lastError w r :
  Runs fn N delayMs backoff onRetry attempt lastError w r ->
  N <= N' ->
  (exists value, outcome r = Some (Normal value)) ->
  Runs fn N' delayMs backoff onRetry attempt lastError w r.
Proof.
  intros Hruns Hle.
  induction Hruns; simpl; intros [v Hv]; try discriminate.
  - apply Runs_return; [lia|assumption].
  - eapply Runs_retry_observed; eauto; lia.
  - eapply Runs_retry; eauto; lia.
Qed.

Lemma sumZ_linear (d from : Z) (count : nat) :
  2 * sumZ (map (chosenDelay d true) (attemptNumbers from count))
  = d * Z.of_nat count * (2 * from + Z.of_nat count - 1).
Proof.
  revert from. induction count as [|count IH]; intros from.
  - simpl. lia.
  - cbn [attemptNumbers map sumZ fold_right]. fold (sumZ (map (chosenDelay d true) (attemptNumbers (from + 1) count))).
    rewrite Z.mul_add_distr_l, IH. unfold chosenDelay. nia.
Qed.

Lemma sumZ_constant (d from : Z) (count : nat) :
  sumZ (map (chosenDelay d false) (attemptNumbers from count))
  = d * Z.of_nat count.
Proof.
  revert from. induction count as [|count IH]; intros from.
  - simpl. lia.
  - cbn [attemptNumbers map sumZ fold_right]. fold (sumZ (map (chosenDelay d false) (attemptNumbers (from + 1) count))).
    rewrite IH. unfold chosenDelay. lia.
Qed.

Section MoreProperties.

Context {T World : Type}.
Variable fn : @Operation T World.
Variable options : RetryOptions.t World.
Variable w : World.

(** X1 (bounds that always hold). With an integer
    [maxAttempts = N >= 1], whatever the operation and the observer do, a
    run invokes the operation at most [N] times and awaits at most
    [N - 1] delays, and [onRetry] is called at most [N - 1] times. *)
Theorem attempts_never_exceed_maxAttempts :
  1 <= maxAttemptsOf options ->
  Z.of_nat (length (fnOutcomes (trace (retryWithBackoff fn (Some options) w))))
  <= maxAttemptsOf options
  /\ Z.of_nat (length (delays (trace (retryWithBackoff fn (Some options) w))))
     <= maxAttemptsOf options - 1
  /\ Z.of_nat
       (length (onRetryCalls (trace (retryWithBackoff fn (Some options) w))))
     <= maxAttemptsOf options - 1.
Proof.
  intros Hmax.
  destruct (Runs_counts_bounded _ _ _ _ _ _ _ _ _
              (retryWithBackoff_Runs fn options w)) as (Hn & Hd & Hc).
  repeat split; lia.
Qed.


(** X3 (what the observer is told). The call of [onRetry] of index [i]
    (from 0) carries the attempt number [i + 1] and the very error that
    invocation [i] of the operation threw. *)
Theorem observer_receives_operation_errors (i : nat) (a : Z) (e : JSValue) :
  nth_error (onRetryCalls (trace (retryWithBackoff fn (Some options) w))) i
    = Some (a, e) ->
  a = Z.of_nat i + 1
  /\ nth_error (fnOutcomes (trace (retryWithBackoff fn (Some options) w))) i
     = Some (Throw e).
Proof.
  intros Hcall.
  destruct (Runs_observer_arguments _ _ _ _ _ _ _ _ _
              (retryWithBackoff_Runs fn options w) _ _ _ Hcall) as [-> Hn].
  split; [lia|assumption].
Qed.

(** X4 (where a thrown error comes from). With an integer
    [maxAttempts], an error that [retryWithBackoff] throws is undefined,
    thrown before anything was called because [maxAttempts <= 0]; or the
    error of the invocation of the operation that ends the trace, logged
    by [logger.error]; or what the call of [onRetry] that ends the trace
    threw. *)
Theorem thrown_error_origin (e : JSValue) :
  outcome (retryWithBackoff fn (Some options) w) = Some (Throw e) ->
  (maxAttemptsOf options <= 0 /\ e = JSUndefined
   /\ trace (retryWithBackoff fn (Some options) w) = [])
  \/ (exists pre,
        trace (retryWithBackoff fn (Some options) w)
        = pre ++ [EvFn (Throw e); EvLoggerError (maxAttemptsOf options) e])
  \/ (exists pre n e0,
        trace (retryWithBackoff fn (Some options) w)
        = pre ++ [EvOnRetry n e0 (Throw e)]).
Proof.
  intros Hthrown.
  destruct (Runs_thrown_origin _ _ _ _ _ _ _ _ _
              (retryWithBackoff_Runs fn options w) _ Hthrown)
    as [(Hgt & He & Htr)|[Hop|Hobs]].
  - left. repeat split; [lia|assumption|assumption].
  - right; left. exact Hop.
  - right; right. exact Hobs.
Qed.

(** X5 (the wait before giving up). With [maxAttempts = N >= 1], an
    operation that always fails and an observer that does not throw, the
    delays awaited are those of the attempts 1 to [N - 1]; they add up to
    [delayMs * N * (N - 1) / 2] with backoff and to [delayMs * (N - 1)]
    without. *)
Theorem exhaustion_total_delay :
  1 <= maxAttemptsOf options ->
  alwaysFails fn ->
  neverThrows (RetryOptions.onRetry options) ->
  delays (trace (retryWithBackoff fn (Some options) w))
  = map (chosenDelay (delayMsOf options) (backoffOf options))
      (attemptNumbers 1 (Z.to_nat (maxAttemptsOf options - 1)))
  /\ 2 * sumZ (delays (trace (retryWithBackoff fn (Some options) w)))
     = (if backoffOf options
        then delayMsOf options * maxAttemptsOf options
             * (maxAttemptsOf options - 1)
        else 2 * (delayMsOf options * (maxAttemptsOf options - 1))).
Proof.
  intros Hmax Hfails Hquiet.
  pose proof (retryWithBackoff_Runs fn options w) as Hruns.
  destruct (Runs_bounded _ _ _ _ _ _ _ _ _ Hruns Hfails Hquiet Hmax)
    as (_ & _ & Hd).
  pose proof (Runs_schedule _ _ _ _ _ _ _ _ _ Hruns) as Hs.
  rewrite Hd in Hs. split; [exact Hs|].
  rewrite Hs. destruct (backoffOf options).
  - rewrite sumZ_linear. rewrite Z2Nat.id by lia. lia.
  - rewrite sumZ_constant. rewrite Z2Nat.id by lia. lia.
Qed.

(** X6 (one attempt is one call). With [maxAttempts = 1] a run is a
    single invocation of the operation: it settles as that invocation
    did, in the world that invocation left, and neither [onRetry] nor a
    delay takes place, whatever the observer. *)
Theorem single_attempt_is_transparent :
  maxAttemptsOf options = 1 ->
  outcome (retryWithBackoff fn (Some options) w) = Some (fst (fn w))
  /\ final (retryWithBackoff fn (Some options) w) = snd (fn w)
  /\ fnOutcomes (trace (retryWithBackoff fn (Some options) w)) = [fst (fn w)]
  /\ onRetryCalls (trace (retryWithBackoff fn (Some options) w)) = []
  /\ delays (trace (retryWithBackoff fn (Some options) w)) = [].
Proof.
  intros Hone.
  pose proof (retryWithBackoff_Runs fn options w) as Hruns.
  remember (retryWithBackoff fn (Some options) w) as r eqn:Hr. clear Hr.
  rewrite Hone in Hruns.
  inversion Hruns; subst; try lia;
    match goal with H : fn w = _ |- _ => rewrite H end;
    simpl; repeat split.
Qed.

End MoreProperties.

(** X7 (more attempts keep a success). A run that returns a value is
    not changed by raising [maxAttempts], the other options being the
    same: the outcome, the final world and the trace are equal. *)
Theorem more_attempts_preserve_success {T World : Type}
    (fn : @Operation T World) (options options' : RetryOptions.t World)
    (w : World) (value : T) :
  maxAttemptsOf options <= maxAttemptsOf options' ->
  delayMsOf options' = delayMsOf options ->
  backoffOf options' = backoffOf options ->
  RetryOptions.onRetry options' = RetryOptions.onRetry options ->
  outcome (retryWithBackoff fn (Some options) w) = Some (Normal value) ->
  retryWithBackoff fn (Some options') w = retryWithBackoff fn (Some options) w.
Proof.
  intros Hle Hd Hb Hcb Hvalue.
  pose proof (retryWithBackoff_Runs fn options' w) as Hruns'.
  rewrite Hd, Hb, Hcb in Hruns'.
  pose proof (Runs_more_attempts _ _ _ _ _ _ _ _ _ _
                (retryWithBackoff_Runs fn options w) Hle
                (ex_intro _ value Hvalue)) as Hruns.
  exact (Runs_functional _ _ _ _ _ _ _ _ _ Hruns' _ Hruns).
Qed.

(** * Further properties of the classifiers *)

Section MoreClassifier.

Local Open Scope string_scope.

Lemma toLowerCaseUnit_idempotent (c : ascii) :
  toLowerCaseUnit (toLowerCaseUnit c) = toLowerCaseUnit c.
Proof.
  destruct c as [[] [] [] [] [] [] [] []]; reflexivity.
Qed.

Lemma toLowerCase_idempotent (s : string) :
  toLowerCase (toLowerCase s) = toLowerCase s.
Proof.
  induction s as [|c s IH]; simpl; [reflexivity|].
  now rewrite toLowerCaseUnit_idempotent, IH.
Qed.

Lemma toLowerCase_app (s t : string) :
  toLowerCase (s ++ t) = toLowerCase s ++ toLowerCase t.
Proof.
  induction s as [|c s IH]; simpl; [reflexivity|now rewrite IH].
Qed.

Lemma prefix_app (p s t : string) :
  prefix p s = true -> prefix p (s ++ t) = true.
Proof.
  revert p. induction s as [|c s IH]; intros [|a p] H; simpl in *;
    try reflexivity; try discriminate; try (now destruct t).
  destruct (ascii_dec a c); [now apply IH|discriminate].
Qed.

Lemma includes_app_r (s t p : string) :
  includes s p = true -> includes (s ++ t) p = true.
Proof.
  induction s as [|c s IH]; intros H.
  - simpl in H. rewrite orb_false_r in H.
    destruct p; [now destruct t|discriminate].
  - cbn [includes] in H. change (String c s ++ t) with (String c (s ++ t)).
    cbn [includes]. apply orb_true_iff in H. apply orb_true_iff.
    destruct H as [H|H].
    + left. now apply (prefix_app p (String c s) t).
    + right. now apply IH.
Qed.

Lemma includes_app_l (s t p : string) :
  includes t p = true -> includes (s ++ t) p = true.
Proof.
  intros H. induction s as [|c s IH]; [exact H|].
  change (String c s ++ t) with (String c (s ++ t)).
  cbn [includes]. rewrite IH. apply orb_true_r.
Qed.

(** A pattern found in a text is found in the text with anything before
    and after it. *)
Lemma includes_context (pre s post p : string) :
  includes s p = true -> includes (pre ++ s ++ post) p = true.
Proof.
  intros H. apply includes_app_l. now apply includes_app_r.
Qed.

Lemma existsb_includes_context (pre s post : string) (patterns : list string) :
  existsb (fun p => includes s p) patterns = true ->
  existsb (fun p => includes (pre ++ s ++ post) p) patterns = true.
Proof.
  intros H. apply existsb_exists in H. destruct H as (p & Hin & Hp).
  apply existsb_exists. exists p. split; [assumption|].
  now apply includes_context.
Qed.

(** X8 ([isFirebaseNetworkError], case by case). It returns true exactly
    when the error has a string [code] that, lowercased, contains
    [auth/network-request-failed], [unavailable] or [deadline-exceeded];
    it returns false for an error that is null or undefined or has no
    [code]; and it throws a [TypeError] where [code] is neither absent
    nor a string. *)
Theorem isFirebaseNetworkError_cases (error : JSValue) :
  (isFirebaseNetworkError error = Normal true <->
   exists code,
     optionalCode error = JSString code
     /\ exists pattern,
          In pattern firebaseNetworkCodes
          /\ includes (toLowerCase code) pattern = true)
  /\ (isNullish (optionalCode error) = true ->
      isFirebaseNetworkError error = Normal false)
  /\ (isNullish (optionalCode error) = false ->
      (forall code, optionalCode error <> JSString code) ->
      isFirebaseNetworkError error = Throw notAFunction).
Proof.
  unfold isFirebaseNetworkError.
  destruct (optionalCode error) as [| | b | n | code | props] eqn:Hcode;
    cbn [optionalToLowerCase orEmpty isNullish];
    (split; [split|split]);
    try discriminate; try reflexivity;
    try (intros (c & Hc & _); discriminate);
    try (intros _ Hno; reflexivity).
  - intros Htrue. exists code. split; [reflexivity|].
    apply existsb_exists. injection Htrue as Htrue. exact Htrue.
  - intros (c & Hc & Hpattern). injection Hc as <-. f_equal.
    apply existsb_exists. exact Hpattern.
  - intros _ Hno. now contradiction (Hno code).
Qed.

(** X9 ([isNetworkError] throws on a message of the wrong type). It
    throws exactly when [message] is neither absent nor a string, and
    what it throws is the [TypeError] of the call [toLowerCase()]. *)
Theorem isNetworkError_throws_iff (error : JSValue) :
  ((exists e, isNetworkError error = Throw e) <->
   isNullish (optionalMessage error) = false
   /\ hasStringMessage error = false)
  /\ (forall e, isNetworkError error = Throw e -> e = notAFunction).
Proof.
  unfold isNetworkError, hasStringMessage.
  destruct (optionalMessage error) as [| | b | n | message | props];
    cbn [optionalToLowerCase orEmpty isNullish];
    (split; [split|]);
    try (intros [e He]; discriminate);
    try (intros [? ?]; discriminate);
    try (intros e He; discriminate);
    try (intros e He; now injection He as <-);
    try (intros _; now split);
    try (intros _; eexists; reflexivity).
Qed.

(** X10 (letter case does not matter). Lowercasing the message of an
    error, or the code, does not change what the classifiers return. *)
Theorem classifiers_ignore_case (text : string) :
  isNetworkError (newError (toLowerCase text)) = isNetworkError (newError text)
  /\ isFirebaseNetworkError (withCode (toLowerCase text))
     = isFirebaseNetworkError (withCode text).
Proof.
  unfold isNetworkError, isFirebaseNetworkError, newError, withCode.
  cbn [optionalMessage optionalCode isNullish getProperty lookup String.eqb
       Ascii.eqb Bool.eqb optionalToLowerCase orEmpty].
  now rewrite toLowerCase_idempotent.
Qed.

(** X11 (context does not matter). A message that is classified as a
    network error stays so with any text before and after it; the same
    holds of a code for [isFirebaseNetworkError]. *)
Theorem classifiers_ignore_context (pre text post : string) :
  (isNetworkError (newError text) = Normal true ->
   isNetworkError (newError (pre ++ text ++ post)) = Normal true)
  /\ (isFirebaseNetworkError (withCode text) = Normal true ->
      isFirebaseNetworkError (withCode (pre ++ text ++ post)) = Normal true).
Proof.
  unfold isNetworkError, isFirebaseNetworkError, newError, withCode.
  cbn [optionalMessage optionalCode isNullish getProperty lookup String.eqb
       Ascii.eqb Bool.eqb optionalToLowerCase orEmpty].
  rewrite !toLowerCase_app.
  split; intros H; injection H as H; f_equal;
    now apply existsb_includes_context.
Qed.

End MoreClassifier.

(** * Properties of the logger *)

Section LoggerProperties.

Import Logger.
Local Open Scope string_scope.

Lemma prefix_empty (s : string) : prefix "" s = true.
Proof.
  now destruct s.
Qed.

Lemma includes_cons_false (c : ascii) (s : string) (sep : ascii) :
  includes (String c s) (String sep "") = false ->
  Ascii.eqb c sep = false /\ includes s (String sep "") = false.
Proof.
  cbn [includes prefix]. intros H. apply orb_false_iff in H.
  destruct H as [Hhead Htail]. split; [|exact Htail].
  destruct (ascii_dec sep c) as [->|Hne].
  - rewrite prefix_empty in Hhead. discriminate.
  - apply Ascii.eqb_neq. congruence.
Qed.

(** A text without the separator is one piece. *)
Lemma split_one_piece (sep : ascii) (s : string) :
  includes s (String sep "") = false -> split sep s = [s].
Proof.
  induction s as [|c s IH]; intros H; [reflexivity|].
  apply includes_cons_false in H. destruct H as [Hc Hs].
  cbn [split]. now rewrite Hc, (IH Hs).
Qed.

(** The first separator ends the first piece. *)
Lemma split_at_first (sep : ascii) (s rest : string) :
  includes s (String sep "") = false ->
  split sep (s ++ String sep rest) = s :: split sep rest.
Proof.
  induction s as [|c s IH]; intros H.
  - cbn [append split]. now rewrite Ascii.eqb_refl.
  - apply includes_cons_false in H. destruct H as [Hc Hs].
    change (String c s ++ String sep rest) with (String c (s ++ String sep rest)).
    cbn [split]. now rewrite Hc, (IH Hs).
Qed.

Lemma includes_app_false (s t : string) (sep : ascii) :
  includes s (String sep "") = false ->
  includes t (String sep "") = false ->
  includes (s ++ t) (String sep "") = false.
Proof.
  intros Hs Ht. induction s as [|c s IH]; [exact Ht|].
  apply includes_cons_false in Hs. destruct Hs as [Hc Hs].
  change (String c s ++ t) with (String c (s ++ t)).
  cbn [includes prefix]. rewrite (IH Hs), orb_false_r.
  destruct (ascii_dec sep c) as [->|Hne]; [|reflexivity].
  rewrite Ascii.eqb_refl in Hc. discriminate.
Qed.

Lemma string_app_assoc (a b c : string) :
  (a ++ b) ++ c = a ++ (b ++ c).
Proof.
  induction a as [|x a IH]; simpl; [reflexivity|now rewrite IH].
Qed.

Lemma substring_prefix (s t : string) :
  substring 0 (String.length s) (s ++ t) = s.
Proof.
  induction s as [|c s IH]; simpl; [now destruct t|now rewrite IH].
Qed.

Lemma timestampOf_shaped (iso date time : string) :
  isoShaped iso date time -> timestampOf iso = Normal time.
Proof.
  intros (-> & Hlen & Hdate & Htime). unfold timestampOf.
  change (date ++ "T" ++ time ++ "Z") with (date ++ String "T" (time ++ "Z")).
  rewrite (split_at_first _ _ _ Hdate).
  rewrite split_one_piece.
  - cbn [nth_error]. now rewrite <- Hlen, substring_prefix.
  - apply includes_app_false; [exact Htime|reflexivity].
Qed.

Lemma toUpperCase_levelName (level : LogLevel) :
  "[" ++ toUpperCase (levelName level) ++ "]" = levelTag level.
Proof.
  now destruct level.
Qed.

(** X12 (the threshold is monotone). A message level that a
    configuration lets through is let through at every level above it. *)
Theorem shouldLog_monotone (config : LoggerConfig) (l l' : LogLevel) :
  shouldLog config l = true ->
  LOG_LEVELS l <= LOG_LEVELS l' ->
  shouldLog config l' = true.
Proof.
  unfold shouldLog. destruct (enabled config); simpl; [|discriminate].
  intros Hl Hle. apply Z.geb_le. apply Z.geb_le in Hl. lia.
Qed.

(** X13 (a disabled logger is silent). With [enabled] false no method
    calls [console], whatever the level and the arguments, and none reads
    the clock. *)
Theorem disabled_logger_is_silent (config : LoggerConfig) (iso message : string)
    (e : JSValue) (args : list JSValue) :
  enabled config = false ->
  debug config iso message args = Normal []
  /\ info config iso message args = Normal []
  /\ warn config iso message args = Normal []
  /\ error config iso message e args = Normal []
  /\ group config message = Normal []
  /\ groupEnd config = Normal [].
Proof.
  intros Hoff.
  unfold debug, info, warn, error, group, groupEnd, shouldLog.
  rewrite Hoff. now repeat split.
Qed.

(** X14 (the default logger follows the environment). A logger made
    without a configuration lets every level through outside production
    and none in production, where the default level [warn] is not reached
    because [enabled] is false. *)
Theorem default_logger_by_environment (NODE_ENV : option string)
    (l : LogLevel) :
  shouldLog (constructor NODE_ENV None) l = isDevelopment NODE_ENV
  /\ shouldLog (constructor (Some "production") None) l = false.
Proof.
  unfold shouldLog, constructor; simpl.
  destruct (isDevelopment NODE_ENV), l; now split.
Qed.

Lemma formatMessage_on_shaped_clock (config : LoggerConfig)
    (iso date time : string) (l : LogLevel) (message : string) :
  isoShaped iso date time ->
  formatMessage config iso l message
  = Normal (if includeTimestamp config
            then "[" ++ time ++ "] " ++ levelTag l ++ " " ++ message
            else levelTag l ++ " " ++ message).
Proof.
  intros Hshape. unfold formatMessage.
  rewrite (timestampOf_shaped _ _ _ Hshape), toUpperCase_levelName.
  destruct (includeTimestamp config); cbn [List.app String.concat].
  - f_equal. cbn [append]. now rewrite string_app_assoc.
  - reflexivity.
Qed.

(** X15 (the formatted line). With a clock reading of the shape
    [<date>T<time>Z], [formatMessage] returns [[<time>] [LEVEL] message],
    or [[LEVEL] message] where [includeTimestamp] is false; it does not
    throw. *)
Theorem formatMessage_shape (config : LoggerConfig) (iso date time : string)
    (l : LogLevel) (message : string) :
  isoShaped iso date time ->
  formatMessage config iso l message
  = Normal (if includeTimestamp config
            then "[" ++ time ++ "] " ++ levelTag l ++ " " ++ message
            else levelTag l ++ " " ++ message).
Proof.
  exact (formatMessage_on_shaped_clock config iso date time l message).
Qed.

(** X16 (errors are never filtered). An enabled logger writes every
    message of level [error] with [console.error], whatever its level:
    one call, with the formatted line and then the error and the other
    arguments. *)
Theorem error_level_is_never_filtered (config : LoggerConfig)
    (iso date time message : string) (e : JSValue) (args : list JSValue) :
  enabled config = true ->
  isoShaped iso date time ->
  error config iso message e args
  = Normal
      [ConsoleError CrossMark
         (if includeTimestamp config
          then "[" ++ time ++ "] [ERROR] " ++ message
          else "[ERROR] " ++ message)
         (e :: args)].
Proof.
  intros Hon Hshape. unfold error, shouldLog.
  rewrite Hon, (formatMessage_on_shaped_clock _ _ _ _ _ _ Hshape).
  destruct (level config), (includeTimestamp config); reflexivity.
Qed.

(** X17 ([setConfig] composes). Two updates in a row are the one update
    by their spread; the empty update changes nothing; an update made
    twice is the update made once. *)
Theorem setConfig_composes (config : LoggerConfig) (first second : PartialConfig) :
  setConfig (setConfig config first) second
  = setConfig config (spread first second)
  /\ setConfig config noChange = config
  /\ setConfig (setConfig config first) first = setConfig config first.
Proof.
  destruct config as [e l t c], first as [e1 l1 t1 c1],
    second as [e2 l2 t2 c2].
  unfold setConfig, spread; simpl.
  destruct e1, l1, t1, c1, e2, l2, t2, c2; repeat split.
Qed.

(** X18 ([includeCaller] changes nothing). Setting [includeCaller], to
    either value, leaves what every method writes as it was. *)
Theorem includeCaller_is_inert (config : LoggerConfig) (b : bool)
    (iso message : string) (e : JSValue) (args : list JSValue) :
  debug (setConfig config (onlyIncludeCaller b)) iso message args
  = debug config iso message args
  /\ info (setConfig config (onlyIncludeCaller b)) iso message args
     = info config iso message args
  /\ warn (setConfig config (onlyIncludeCaller b)) iso message args
     = warn config iso message args
  /\ error (setConfig config (onlyIncludeCaller b)) iso message e args
     = error config iso message e args
  /\ group (setConfig config (onlyIncludeCaller b)) message
     = group config message
  /\ groupEnd (setConfig config (onlyIncludeCaller b)) = groupEnd config.
Proof.
  repeat split.
Qed.

End LoggerProperties.

(** * The further properties at concrete inputs *)

Section MoreInstances.

Lemma attempts_never_exceed_maxAttempts_witness :
  Z.of_nat (length (fnOutcomes
                      (trace (retryWithBackoff failing (Some twoAttemptsFaulty)
                                0%nat))))
  <= maxAttemptsOf twoAttemptsFaulty
  /\ Z.of_nat (length (delays
                         (trace (retryWithBackoff failing
                                   (Some twoAttemptsFaulty) 0%nat))))
     <= maxAttemptsOf twoAttemptsFaulty - 1
  /\ Z.of_nat (length (onRetryCalls
                         (trace (retryWithBackoff failing
                                   (Some twoAttemptsFaulty) 0%nat))))
     <= maxAttemptsOf twoAttemptsFaulty - 1.
Proof.
  apply (attempts_never_exceed_maxAttempts failing twoAttemptsFaulty 0%nat).
  cbn; lia.
Defined.

Lemma observer_receives_operation_errors_witness :
  2 = Z.of_nat 1 + 1
  /\ nth_error
       (fnOutcomes (trace (retryWithBackoff flaky (Some fiveAttempts) 0%nat))) 1
     = Some (Throw (JSString "E2")).
Proof.
  apply (observer_receives_operation_errors flaky fiveAttempts 0%nat
           1 2 (JSString "E2")).
  reflexivity.
Defined.

Lemma thrown_error_origin_witness :
  (maxAttemptsOf threeAttempts <= 0 /\ JSNumber 3 = JSUndefined
   /\ trace (retryWithBackoff failing (Some threeAttempts) 0%nat) = [])
  \/ (exists pre,
        trace (retryWithBackoff failing (Some threeAttempts) 0%nat)
        = pre ++ [EvFn (Throw (JSNumber 3));
                  EvLoggerError (maxAttemptsOf threeAttempts) (JSNumber 3)])
  \/ (exists pre n e0,
        trace (retryWithBackoff failing (Some threeAttempts) 0%nat)
        = pre ++ [EvOnRetry n e0 (Throw (JSNumber 3))]).
Proof.
  apply (thrown_error_origin failing threeAttempts 0%nat (JSNumber 3)).
  reflexivity.
Defined.

Lemma exhaustion_total_delay_witness :
  delays (trace (retryWithBackoff failing (Some fiveAttempts) 0%nat))
  = [100; 200; 300; 400]
  /\ 2 * sumZ (delays (trace (retryWithBackoff failing (Some fiveAttempts) 0%nat)))
     = 100 * 5 * (5 - 1).
Proof.
  apply (exhaustion_total_delay failing fiveAttempts 0%nat).
  - cbn; lia.
  - intros w. reflexivity.
  - intros attempt error w. reflexivity.
Defined.

Lemma single_attempt_is_transparent_witness :
  outcome (retryWithBackoff failing (Some oneAttemptFaulty) 0%nat)
  = Some (Throw (JSNumber 1))
  /\ final (retryWithBackoff failing (Some oneAttemptFaulty) 0%nat) = 1%nat
  /\ fnOutcomes (trace (retryWithBackoff failing (Some oneAttemptFaulty) 0%nat))
     = [Throw (JSNumber 1)]
  /\ onRetryCalls (trace (retryWithBackoff failing (Some oneAttemptFaulty) 0%nat))
     = []
  /\ delays (trace (retryWithBackoff failing (Some oneAttemptFaulty) 0%nat)) = [].
Proof.
  apply (single_attempt_is_transparent failing oneAttemptFaulty 0%nat).
  reflexivity.
Defined.

Lemma more_attempts_preserve_success_witness :
  retryWithBackoff flaky (Some nineAttempts) 0%nat
  = retryWithBackoff flaky (Some fiveAttempts) 0%nat.
Proof.
  apply (more_attempts_preserve_success flaky fiveAttempts nineAttempts
           0%nat 42).
  - cbn; lia.
  - reflexivity.
  - reflexivity.
  - reflexivity.
  - reflexivity.
Defined.

Lemma isFirebaseNetworkError_cases_witness :
  isFirebaseNetworkError (withCode "UNAVAILABLE") = Normal true
  /\ isFirebaseNetworkError JSNull = Normal false
  /\ isFirebaseNetworkError (JSObject [("code"%string, JSNumber 14)])
     = Throw notAFunction.
Proof.
  split; [|split].
  - apply (proj1 (isFirebaseNetworkError_cases (withCode "UNAVAILABLE"))).
    exists "UNAVAILABLE"%string. split; [reflexivity|].
    exists "unavailable"%string. split; [right; now left|reflexivity].
  - apply (proj1 (proj2 (isFirebaseNetworkError_cases JSNull))).
    reflexivity.
  - apply (proj2 (proj2 (isFirebaseNetworkError_cases
                           (JSObject [("code"%string, JSNumber 14)])))).
    + reflexivity.
    + intros code. discriminate.
Defined.

Lemma isNetworkError_throws_iff_witness :
  exists e, isNetworkError (JSObject [("message"%string, JSNumber 42)]) = Throw e.
Proof.
  apply (proj1 (isNetworkError_throws_iff
                  (JSObject [("message"%string, JSNumber 42)]))).
  split; reflexivity.
Defined.

Lemma classifiers_ignore_context_witness :
  isNetworkError (newError "Request timeout after 30s") = Normal true
  /\ isFirebaseNetworkError (withCode "firestore/unavailable") = Normal true.
Proof.
  split.
  - apply (proj1 (classifiers_ignore_context "Request " "timeout" " after 30s")).
    reflexivity.
  - apply (proj2 (classifiers_ignore_context "firestore/" "unavailable" "")).
    reflexivity.
Defined.

Lemma shouldLog_monotone_witness :
  Logger.shouldLog (Logger.constructor None None) Logger.Error = true.
Proof.
  apply (shouldLog_monotone (Logger.constructor None None)
           Logger.Warn Logger.Error).
  - reflexivity.
  - cbn; lia.
Defined.

Lemma disabled_logger_is_silent_witness :
  Logger.debug (Logger.constructor (Some "production"%string) None)
    sampleClock "[Retry] Failed after 3 attempts" [] = Normal []
  /\ Logger.info (Logger.constructor (Some "production"%string) None)
       sampleClock "[Retry] Failed after 3 attempts" [] = Normal []
  /\ Logger.warn (Logger.constructor (Some "production"%string) None)
       sampleClock "[Retry] Failed after 3 attempts" [] = Normal []
  /\ Logger.error (Logger.constructor (Some "production"%string) None)
       sampleClock "[Retry] Failed after 3 attempts" (JSNumber 3) [] = Normal []
  /\ Logger.group (Logger.constructor (Some "production"%string) None)
       "[Retry] Failed after 3 attempts" = Normal []
  /\ Logger.groupEnd (Logger.constructor (Some "production"%string) None)
     = Normal [].
Proof.
  apply (disabled_logger_is_silent
           (Logger.constructor (Some "production"%string) None)).
  reflexivity.
Defined.

Lemma sampleClock_shaped :
  Logger.isoShaped sampleClock "2026-11-03" "12:34:56.789".
Proof.
  repeat split.
Qed.

Lemma formatMessage_shape_witness :
  Logger.formatMessage (Logger.constructor None None) sampleClock Logger.Warn
    "[Retry] Attempt 1 failed, retrying in 1000ms"
  = Normal
      "[12:34:56.789] [WARN] [Retry] Attempt 1 failed, retrying in 1000ms"%string.
Proof.
  apply (formatMessage_shape (Logger.constructor None None) sampleClock
           "2026-11-03" "12:34:56.789" Logger.Warn).
  repeat split.
Defined.

Lemma error_level_is_never_filtered_witness :
  Logger.error (Logger.constructor None None) sampleClock
    "[Retry] Failed after 3 attempts" (JSNumber 3) []
  = Normal
      [Logger.ConsoleError Logger.CrossMark
         "[12:34:56.789] [ERROR] [Retry] Failed after 3 attempts"
         [JSNumber 3]].
Proof.
  apply (error_level_is_never_filtered (Logger.constructor None None)
           sampleClock "2026-11-03" "12:34:56.789").
  - reflexivity.
  - repeat split.
Defined.

End MoreInstances.

(** * Properties of the authentication context *)

Section AuthProperties.

Import Auth.
Local Open Scope string_scope.

Variable Ext : Type.
Variable services : Services Ext.

Lemma navigations_app (a b : list Effect) :
  navigations (a ++ b)%list = (navigations a ++ navigations b)%list.
Proof.
  induction a as [|[l m args|[]] a IH]; simpl; congruence.
Qed.

Lemma calls_app (a b : list Effect) :
  calls (a ++ b)%list = (calls a ++ calls b)%list.
Proof.
  induction a as [|[l m args|c] a IH]; simpl; congruence.
Qed.

(** X19 ([logout] always signs out). Whatever the services and the
    router do, after [logout] the component holds no user and no profile,
    is not authenticated, shows no error and is not loading. *)
Theorem logout_always_signs_out (s : Store Ext) :
  signedOut (ui (snd (logout services s))).
Proof.
  auth_run (logout services s); repeat split.
Qed.

(** X20 ([logout] navigates once). Where [router.replace] does not
    throw, [logout] returns, whether [AuthService.logout] failed or not,
    and it has sent the router to [/auth/login] exactly once. *)
Theorem logout_navigates_once (s : Store Ext) :
  (forall path e, fst (routerReplace services path e) = Normal tt) ->
  fst (logout services s) = Normal tt
  /\ exists new,
       effects (snd (logout services s)) = (effects s ++ new)%list
       /\ navigations new = ["/auth/login"].
Proof.
  intros Hrouter. auth_run (logout services s);
    repeat match goal with
           | H : routerReplace services ?p ?e = (Throw _, _) |- _ =>
               pose proof (Hrouter p e) as Hno; rewrite H in Hno; discriminate
           end;
    (split; [reflexivity|]);
    rewrite <- ?app_assoc; eexists; split; reflexivity.
Qed.

(** X21 ([login]). [login] returns true exactly when
    [FirebaseService.loginUser] returns, with no error shown; when that
    call throws, [login] throws the same error and shows the login
    message. Either way it ends not loading, and it leaves the user, the
    profile and the authenticated flag as they were. *)
Theorem login_outcome (email password : string) (s : Store Ext) :
  loading (ui (snd (login services email password s))) = false
  /\ user (ui (snd (login services email password s))) = user (ui s)
  /\ userProfile (ui (snd (login services email password s)))
     = userProfile (ui s)
  /\ isAuthenticated (ui (snd (login services email password s)))
     = isAuthenticated (ui s)
  /\ match fst (loginUser services email password (ext s)) with
     | Normal _ =>
         fst (login services email password s) = Normal true
         /\ error (ui (snd (login services email password s))) = None
     | Throw e =>
         fst (login services email password s) = Throw e
         /\ error (ui (snd (login services email password s)))
            = Some "Login failed. Please check your credentials."
     end.
Proof.
  auth_run (login services email password s); repeat split.
Qed.

(** X22 ([register]). [register] returns true exactly when
    [FirebaseService.registerUser], called with the email, the password
    and the name in that order, returns; when it throws, [register]
    throws the same error and shows the registration message. Either way
    it ends not loading and leaves user, profile and authenticated flag
    as they were. *)
Theorem register_outcome (name email password : string) (s : Store Ext) :
  loading (ui (snd (register services name email password s))) = false
  /\ user (ui (snd (register services name email password s))) = user (ui s)
  /\ userProfile (ui (snd (register services name email password s)))
     = userProfile (ui s)
  /\ isAuthenticated (ui (snd (register services name email password s)))
     = isAuthenticated (ui s)
  /\ match fst (registerUser services email password name (ext s)) with
     | Normal _ =>
         fst (register services name email password s) = Normal true
         /\ error (ui (snd (register services name email password s))) = None
     | Throw e =>
         fst (register services name email password s) = Throw e
         /\ error (ui (snd (register services name email password s)))
            = Some "Registration failed. Please try again."
     end.
Proof.
  auth_run (register services name email password s); repeat split.
Qed.



(** X25 (a service failure while signing in). Given a user, where
    [AuthService.saveUser] throws, the listener asks for nothing else,
    and it leaves the component signed out and showing the
    authentication message, though it was given a user. *)
Theorem listener_sign_in_failure (u : FirebaseUser) (s : Store Ext)
    (e1 : Ext) (thrown : JSValue) :
  saveUser services
    {| authUid := uid u;
       authEmail := email u;
       authDisplayName := orUndefined (displayName u);
       authPhotoURL := orUndefined (photoURL u) |}
    (ext s) = (Throw thrown, e1) ->
  ui (snd (onAuthStateChangedListener services (Some u) s))
  = {| user := None;
       userProfile := None;
       loading := false;
       isAuthenticated := false;
       error := Some "Authentication error occurred" |}
  /\ exists new,
       effects (snd (onAuthStateChangedListener services (Some u) s))
       = (effects s ++ new)%list
       /\ calls new
          = [SaveUser {| authUid := uid u;
                         authEmail := email u;
                         authDisplayName := orUndefined (displayName u);
                         authPhotoURL := orUndefined (photoURL u) |}].
Proof.
  intros Hsave.
  remember (onAuthStateChangedListener services (Some u) s) as r eqn:Hrun.
  auth_unfold Hrun. rewrite Hsave in Hrun. auth_reduce. subst r. auth_reduce.
  split; [reflexivity|].
  rewrite <- ?app_assoc. eexists; split; reflexivity.
Qed.

(** X26 ([updateUserProfile] needs a user). Without a user it throws
    the error [No authenticated user] and shows the update message,
    having called no service. *)
Theorem updateUserProfile_requires_user (userProfile : option Profile)
    (updates : Profile) (s : Store Ext) :
  fst (updateUserProfile services None userProfile updates s)
  = Throw (newError "No authenticated user")
  /\ error (ui (snd (updateUserProfile services None userProfile updates s)))
     = Some "Failed to update profile. Please try again."
  /\ ext (snd (updateUserProfile services None userProfile updates s)) = ext s
  /\ exists new,
       effects (snd (updateUserProfile services None userProfile updates s))
       = (effects s ++ new)%list
       /\ calls new = [].
Proof.
  auth_run (updateUserProfile services None userProfile updates s).
  repeat split. eexists; split; reflexivity.
Qed.

(** X27 (what [updateUserProfile] asks of the services). With a user it
    calls [FirebaseService.updateUserProfile] once, whatever happens
    before; it first deletes the old profile image exactly when the old
    and the new [profileImageUrl] are both truthy and differ, and a
    failure to delete does not stop the update. *)
Theorem updateUserProfile_calls (u : FirebaseUser)
    (userProfile : option Profile) (updates : Profile) (s : Store Ext) :
  exists new,
    effects (snd (updateUserProfile services (Some u) userProfile updates s))
    = (effects s ++ new)%list
    /\ calls new
       = (match replacedImage userProfile updates with
          | Some old => [DeleteProfileImage old]
          | None => []
          end ++ [UpdateUserProfile (uid u) updates])%list.
Proof.
  unfold replacedImage.
  remember (updateUserProfile services (Some u) userProfile updates s)
    as r eqn:Hrun.
  auth_unfold Hrun.
  destruct (truthy (lookup "profileImageUrl" updates) && _ && _);
    auth_reduce; repeat auth_step Hrun; subst r; auth_reduce;
    rewrite <- ?app_assoc; eexists; split; reflexivity.
Qed.

Lemma lookup_app (key : string) (a b : Profile) :
  lookup key (a ++ b)%list
  = if hasKey key a then lookup key a else lookup key b.
Proof.
  induction a as [|[k v] a IH]; simpl; [reflexivity|].
  destruct (String.eqb k key); simpl; [reflexivity|exact IH].
Qed.

(** X28 (the merged profile). Where the services do not throw,
    [updateUserProfile] returns and replaces the profile held, if one is
    held, by its spread with the updates: a property reads as in the
    updates if they have it, and as before otherwise. *)
Theorem updateUserProfile_merges (u : FirebaseUser)
    (userProfile : option Profile) (updates : Profile) (s : Store Ext) :
  (forall userId p e, fst (updateProfile services userId p e) = Normal tt) ->
  fst (updateUserProfile services (Some u) userProfile updates s) = Normal tt
  /\ Auth.userProfile
       (ui (snd (updateUserProfile services (Some u) userProfile updates s)))
     = match Auth.userProfile (ui s) with
       | Some prev => Some (spread prev updates)
       | None => None
       end
  /\ forall prev key,
       lookup key (spread prev updates)
       = if hasKey key updates then lookup key updates else lookup key prev.
Proof.
  intros Hupdate. split; [|split]; [| |intros prev key; apply lookup_app].
  all: remember (updateUserProfile services (Some u) userProfile updates s)
         as r eqn:Hrun;
    auth_unfold Hrun;
    destruct (truthy (lookup "profileImageUrl" updates) && _ && _);
    auth_reduce; repeat auth_step Hrun; subst r; auth_reduce;
    repeat match goal with
           | H : updateProfile services ?a ?b ?e = (Throw _, _) |- _ =>
               pose proof (Hupdate a b e) as Hno; rewrite H in Hno;
               discriminate
           | x : unit |- _ => destruct x
           end; reflexivity.
Qed.

(** X29 (the migration check is contained). [checkAndMigrateLocalData]
    never throws, does not touch the state of the component, and asks
    the services for one thing, [AuthService.getUser]. *)
Theorem checkAndMigrateLocalData_contained (userId : string) (s : Store Ext) :
  fst (checkAndMigrateLocalData services userId s) = Normal tt
  /\ ui (snd (checkAndMigrateLocalData services userId s)) = ui s
  /\ exists new,
       effects (snd (checkAndMigrateLocalData services userId s))
       = (effects s ++ new)%list
       /\ calls new = [GetUser].
Proof.
  auth_run (checkAndMigrateLocalData services userId s); repeat split;
    rewrite <- ?app_assoc; eexists; split; reflexivity.
Qed.

(** X30 (the storage event). [handleStorageChange] does nothing at all
    unless the key is [logout] and the new value is [true]; then it
    leaves no user, no profile, no error and the component not
    authenticated, and asks the router for [/auth/login]. It never
    throws, also where the router does. *)
Theorem handleStorageChange_cases (key newValue : option string)
    (s : Store Ext) :
  fst (handleStorageChange services key newValue s) = Normal tt
  /\ (if match key with Some k => String.eqb k "logout" | None => false end
         && match newValue with Some v => String.eqb v "true" | None => false end
      then
        user (ui (snd (handleStorageChange services key newValue s))) = None
        /\ userProfile (ui (snd (handleStorageChange services key newValue s)))
           = None
        /\ isAuthenticated
             (ui (snd (handleStorageChange services key newValue s))) = false
        /\ error (ui (snd (handleStorageChange services key newValue s))) = None
        /\ loading (ui (snd (handleStorageChange services key newValue s)))
           = loading (ui s)
        /\ exists new,
             effects (snd (handleStorageChange services key newValue s))
             = (effects s ++ new)%list
             /\ calls new = [RouterReplace "/auth/login"]
      else handleStorageChange services key newValue s = (Normal tt, s)).
Proof.
  remember (handleStorageChange services key newValue s) as r eqn:Hrun.
  auth_unfold Hrun.
  destruct (match key with Some k => String.eqb k "logout" | None => false end
            && match newValue with
               | Some v => String.eqb v "true"
               | None => false
               end);
    auth_reduce; repeat auth_step Hrun; subst r; auth_reduce;
    repeat match goal with u : unit |- _ => destruct u end;
    repeat split; rewrite <- ?app_assoc; eexists; split; reflexivity.
Qed.

End AuthProperties.

(** * The properties of the authentication context at concrete inputs *)

Section AuthInstances.

Import Auth.

Lemma logout_navigates_once_witness :
  fst (logout calmServices freshStore) = Normal tt
  /\ exists new,
       effects (snd (logout calmServices freshStore))
       = (effects freshStore ++ new)%list
       /\ navigations new = ["/auth/login"%string].
Proof.
  apply (logout_navigates_once nat calmServices freshStore).
  intros path e. reflexivity.
Defined.



Lemma listener_sign_in_failure_witness :
  ui (snd (onAuthStateChangedListener offlineServices (Some sampleUser)
             freshStore))
  = {| user := None;
       userProfile := None;
       loading := false;
       isAuthenticated := false;
       error := Some "Authentication error occurred"%string |}
  /\ exists new,
       effects (snd (onAuthStateChangedListener offlineServices
                       (Some sampleUser) freshStore))
       = (effects freshStore ++ new)%list
       /\ calls new
          = [SaveUser {| authUid := uid sampleUser;
                         authEmail := email sampleUser;
                         authDisplayName := orUndefined (displayName sampleUser);
                         authPhotoURL := orUndefined (photoURL sampleUser) |}].
Proof.
  apply (listener_sign_in_failure nat offlineServices sampleUser freshStore
           1%nat (JSString "offline")).
  reflexivity.
Defined.

Lemma updateUserProfile_merges_witness :
  fst (updateUserProfile calmServices (Some sampleUser) (Some sampleProfile)
         [("profileImageUrl"%string, JSString "new.png")] freshStore)
  = Normal tt
  /\ Auth.userProfile
       (ui (snd (updateUserProfile calmServices (Some sampleUser)
                   (Some sampleProfile)
                   [("profileImageUrl"%string, JSString "new.png")]
                   freshStore)))
     = match Auth.userProfile (ui freshStore) with
       | Some prev =>
           Some (spread prev [("profileImageUrl"%string, JSString "new.png")])
       | None => None
       end
  /\ forall prev key,
       lookup key (spread prev [("profileImageUrl"%string, JSString "new.png")])
       = if hasKey key [("profileImageUrl"%string, JSString "new.png")]
         then lookup key [("profileImageUrl"%string, JSString "new.png")]
         else lookup key prev.
Proof.
  apply (updateUserProfile_merges nat calmServices sampleUser
           (Some sampleProfile)
           [("profileImageUrl"%string, JSString "new.png")] freshStore).
  intros userId p e. reflexivity.
Defined.

End AuthInstances.
